(** * clean_aesop_fables: the line-by-line fable cleaner

    A shallow embedding of [scripts/clean_aesop_fables.py] and the proofs of
    the properties its specification states about it.

    Python's [str] is a sequence of Unicode code points: a text is modelled as
    a [list N] of code points.  A file's content is the text that Python's
    text layer hands to the script (decoded, line ends already translated to
    ["\n"]). *)

From Stdlib Require Import NArith Ascii String.
From stdpp Require Import gmap strings list fin_maps.

Local Open Scope N_scope.

(** ** Characters and texts *)

Abbreviation char := N (only parsing).
Abbreviation text := (list N) (only parsing).

(** A Python literal of ASCII characters, as a text. *)
Definition py (s : string) : text :=
  map Ascii.N_of_ascii (String.list_ascii_of_string s).

Definition NL : char := 10.      (* "\n" *)
Definition TAB : char := 9.      (* "\t" *)
Definition SPACE : char := 32.   (* " " *)

(** The delimiter token ["###"]. *)
Definition DELIM : text := [35; 35; 35].

(** [in_range lo hi c]: the code point lies in the closed range. *)
Definition in_range (lo hi c : char) : bool := (lo <=? c) && (c <=? hi).

(** [ch.isspace()], the characters [str.strip()] removes: the code points
    CPython lists in [_PyUnicode_IsWhitespace]. *)
Definition isspace (c : char) : bool :=
  in_range 9 13 c || in_range 28 32 c || (c =? 133) || (c =? 160)
  || (c =? 5760) || in_range 8192 8202 c || (c =? 8232) || (c =? 8233)
  || (c =? 8239) || (c =? 8287) || (c =? 12288).

(** ** The [str] methods the script calls *)

(** Drops the longest prefix of characters satisfying [p]. *)
Fixpoint drop_while (p : char -> bool) (s : text) : text :=
  match s with
  | [] => []
  | c :: s' => if p c then drop_while p s' else s
  end.

Definition lstrip_with (p : char -> bool) (s : text) : text := drop_while p s.

Definition rstrip_with (p : char -> bool) (s : text) : text :=
  reverse (drop_while p (reverse s)).

(** [s.strip()]: whitespace removed at both ends. *)
Definition strip (s : text) : text := rstrip_with isspace (lstrip_with isspace s).

(** [s.rstrip("\n")]: every trailing newline removed. *)
Definition rstrip_nl (s : text) : text := rstrip_with (N.eqb NL) s.

(** [s.startswith(" ") or s.startswith("\t")]. *)
Definition starts_with_space_or_tab (s : text) : bool :=
  match s with
  | c :: _ => (c =? SPACE) || (c =? TAB)
  | [] => false
  end.

(** ["\n".join(lines)]. *)
Fixpoint join_nl (lines : list text) : text :=
  match lines with
  | [] => []
  | [l] => l
  | l :: rest => l ++ NL :: join_nl rest
  end.

(** [file.readlines()]: the text cut after every newline, each line keeping
    its newline; a last line without one is kept as it is. *)
Fixpoint readlines (t : text) : list text :=
  match t with
  | [] => []
  | c :: t' =>
      if c =? NL then [c] :: readlines t'
      else match readlines t' with
           | [] => [[c]]
           | l :: ls => (c :: l) :: ls
           end
  end.

(** ** Case and letter classification *)

(** The properties of a code point that [str.isupper] and [str.isalpha] read
    from the Unicode character database. *)
Record char_props := CharProps {
  Alphabetic : bool;   (* general category L*: [ch.isalpha()] *)
  Uppercase : bool;    (* derived property Uppercase *)
  Lowercase : bool;    (* derived property Lowercase *)
  Titlecase : bool     (* general category Lt *)
}.

Definition ascii_props (c : char) : char_props :=
  {| Alphabetic := in_range 65 90 c || in_range 97 122 c;
     Uppercase := in_range 65 90 c;
     Lowercase := in_range 97 122 c;
     Titlecase := false |}.

Section Script.

(** The database entries of the code points above ASCII.  Everything below
    holds whatever they are. *)
Variable ucd : char -> char_props.

Definition props (c : char) : char_props :=
  if c <? 128 then ascii_props c else ucd c.

Definition ch_isalpha (c : char) : bool := Alphabetic (props c).
Definition ch_isupper (c : char) : bool := Uppercase (props c).
Definition ch_islower (c : char) : bool := Lowercase (props c).
Definition ch_istitle (c : char) : bool := Titlecase (props c).

(** [s.isupper()], as CPython scans it: a lowercase or titlecase character
    answers [False]; otherwise the answer is whether an uppercase character
    was seen.  Characters without case are passed over. *)
Fixpoint isupper_scan (cased : bool) (s : text) : bool :=
  match s with
  | [] => cased
  | c :: s' =>
      if ch_islower c || ch_istitle c then false
      else isupper_scan (cased || ch_isupper c) s'
  end.

Definition str_isupper (s : text) : bool := isupper_scan false s.

(** [is_title_line(line)]. *)
Definition is_title_line (line : text) : bool :=
  let stripped := strip line in
  str_isupper stripped && existsb ch_isalpha stripped.

(** ** The pass over the lines *)

Inductive line_type := Title | Text | Empty.

#[global] Instance line_type_eq_dec : EqDecision line_type.
Proof. solve_decision. Defined.

(** The two loop variables. *)
Record pass_state := PassState {
  cleaned_lines : list text;
  previous_line_type : option line_type
}.

Definition initial_state : pass_state :=
  {| cleaned_lines := []; previous_line_type := None |}.

(** [not cleaned_lines or cleaned_lines[-1] != x]. *)
Definition last_is_not (x : text) (cl : list text) : bool :=
  match last cl with
  | Some y => negb (bool_decide (y = x))
  | None => true
  end.

(** [previous_line_type in {"title", "text"}]. *)
Definition title_or_text (t : option line_type) : bool :=
  match t with
  | Some Title | Some Text => true
  | _ => false
  end.

(** One iteration of the [for line in lines] loop. *)
Definition step (st : pass_state) (line : text) : pass_state :=
  let stripped := rstrip_nl line in
  if starts_with_space_or_tab stripped then st
  else if is_title_line stripped then
    let cl := cleaned_lines st in
    let cl := if last_is_not DELIM cl then cl ++ [DELIM] else cl in
    {| cleaned_lines := cl ++ [stripped]; previous_line_type := Some Title |}
  else if bool_decide (strip stripped = []) then
    let cl := cleaned_lines st in
    let cl :=
      if title_or_text (previous_line_type st) && last_is_not [] cl
      then cl ++ [[]] else cl in
    {| cleaned_lines := cl; previous_line_type := Some Empty |}
  else
    {| cleaned_lines := cleaned_lines st ++ [stripped];
       previous_line_type := Some Text |}.

Definition run_pass (lines : list text) : pass_state :=
  foldl step initial_state lines.

(** [final_text = "\n".join(cleaned_lines).strip() + "\n"]. *)
Definition final_text (cl : list text) : text := strip (join_nl cl) ++ [NL].

(** The text [clean_fables] writes for a file whose content is [t]. *)
Definition clean_text (t : text) : text :=
  final_text (cleaned_lines (run_pass (readlines t))).

(** ** Files and the script's effects *)

Inductive exn := FileNotFoundError (msg : string).

Inductive io_event :=
  | EvRead (path : string)
  | EvWrite (path : string) (content : text)
  | EvPrint (msg : string).

(** The files by path, and what the script has done so far. *)
Record world := World {
  files : gmap string (list N);
  trace : list io_event
}.

(** A computation either raises or returns, and leaves a world behind. *)
Definition io (A : Type) : Type := world -> (exn + A) * world.

Definition ret {A} (a : A) : io A := fun w => (inr a, w).

Definition raise {A} (e : exn) : io A := fun w => (inl e, w).

Definition bind {A B} (m : io A) (k : A -> io B) : io B :=
  fun w =>
    match m w with
    | (inl e, w') => (inl e, w')
    | (inr a, w') => k a w'
    end.

Notation "'let*' x ':=' m 'in' k" := (bind m (fun x => k))
  (at level 10, x name, m at level 100, k at level 200).

(** [os.path.exists(path)]. *)
Definition os_path_exists (path : string) : io bool :=
  fun w => (inr (bool_decide (is_Some (files w !! path))), w).

(** [open(path, "r").readlines()]. *)
Definition file_readlines (path : string) : io (list text) :=
  fun w =>
    match files w !! path with
    | Some content =>
        (inr (readlines content),
         {| files := files w; trace := trace w ++ [EvRead path] |})
    | None => (inl (FileNotFoundError path), w)
    end.

(** [open(path, "w").write(content)]: the file is replaced. *)
Definition file_write (path : string) (content : text) : io unit :=
  fun w =>
    (inr tt, {| files := <[path := content]> (files w);
                trace := trace w ++ [EvWrite path content] |}).

Definition print (msg : string) : io unit :=
  fun w => (inr tt, {| files := files w; trace := trace w ++ [EvPrint msg] |}).

(** The two messages of the script. *)
Definition not_found_message (file_path : string) : string :=
  String.append "Input file not found at " file_path.

Definition finished_message (file_path : string) : string :=
  String.append "Finished cleaning. File overwritten at " file_path.

(** [clean_fables(file_path)]. *)
Definition clean_fables (file_path : string) : io unit :=
  let* found := os_path_exists file_path in
  if negb found then
    raise (FileNotFoundError (not_found_message file_path))
  else
    let* lines := file_readlines file_path in
    let st := run_pass lines in
    let* written := file_write file_path (final_text (cleaned_lines st)) in
    print (finished_message file_path).

(** ** Canonical line sequences

    The vocabulary the properties below are stated in. *)

(** What an entry of the cleaned sequence looks like, given the entry before
    it: it holds no newline and does not start with a space or a tab; if it is
    blank it is the empty string and follows an entry that is not blank; if
    it is a title it follows the delimiter. *)
Definition entry_ok (prev : option (list N)) (x : list N) : Prop :=
  (NL ∉ x) /\ starts_with_space_or_tab x = false
  /\ (strip x = [] -> x = [] /\ exists p, prev = Some p /\ strip p <> [])
  /\ (is_title_line x = true -> prev = Some DELIM).

Fixpoint canonical_from (prev : option (list N)) (cl : list (list N)) : Prop :=
  match cl with
  | [] => True
  | x :: cl' => entry_ok prev x /\ canonical_from (Some x) cl'
  end.

Definition canonical (cl : list (list N)) : Prop := canonical_from None cl.

Definition last_or (prev : option (list N)) (cl : list (list N)) :=
  match last cl with Some y => Some y | None => prev end.

(** The loop invariant: the cleaned sequence is canonical, and a previous
    line type of title or text means something was appended. *)
Definition pass_inv (st : pass_state) : Prop :=
  canonical (cleaned_lines st)
  /\ (title_or_text (previous_line_type st) = true -> cleaned_lines st <> []).

(** The kind of line the pass takes [x] for, once it is not commentary. *)
Definition line_type_of (x : text) : line_type :=
  if is_title_line x then Title
  else if bool_decide (strip x = []) then Empty else Text.

(** The title rule as the specification words it: after trimming, every
    alphabetic character is uppercase and there is an alphabetic character. *)
Definition title_rule_as_stated (line : text) : Prop :=
  (forall c, c ∈ strip line -> ch_isalpha c = true -> ch_isupper c = true)
  /\ (exists c, c ∈ strip line /\ ch_isalpha c = true).

(** The title rule of [str.isupper]: after trimming, no character is
    lowercase or titlecase, one is uppercase, and one is alphabetic. *)
Definition title_rule (line : text) : Prop :=
  (forall c, c ∈ strip line -> ch_islower c = false /\ ch_istitle c = false)
  /\ (exists c, c ∈ strip line /\ ch_isupper c = true)
  /\ (exists c, c ∈ strip line /\ ch_isalpha c = true).

(** "Title lines are emitted trimmed", for one iteration of the loop on a
    line that is not commentary and is a title. *)
Definition title_appended_trimmed (st : pass_state) (line : text) : Prop :=
  starts_with_space_or_tab (rstrip_nl line) = false ->
  is_title_line (rstrip_nl line) = true ->
  last (cleaned_lines (step st line)) = Some (strip line).

(** Delimiter placement as the specification words it: every title line
    comes right after a delimiter line, every delimiter line is followed at
    once by a title line, and no two delimiter lines are next to each other. *)
Definition placement_as_stated (out : list text) : Prop :=
  (forall i x, out !! i = Some x -> is_title_line x = true ->
     exists j, i = S j /\ out !! j = Some DELIM)
  /\ (forall i, out !! i = Some DELIM ->
       exists y, out !! S i = Some y /\ is_title_line y = true)
  /\ (forall i, ~ (out !! i = Some DELIM /\ out !! S i = Some DELIM)).

(** Every line that reads as the delimiter is followed by a title line. *)
Definition delim_then_title (cl : list text) : Prop :=
  forall i x, cl !! i = Some x -> strip x = DELIM ->
    exists y, cl !! (S i) = Some y /\ is_title_line y = true.

End Script.

(** The lines of a written text, as a reader of the file sees them. *)
Definition lines_of (t : text) : list text := map rstrip_nl (readlines t).


(** Lines that strip to the same text are of the same kind. *)
Definition same_stripped (x y : list N) : Prop := strip x = strip y.

(** A line of the input that brings no delimiter of its own: it is
    commentary, or it does not read ["###"] once trimmed. *)
Definition no_delimiter_text (line : list N) : Prop :=
  starts_with_space_or_tab (rstrip_nl line) = true \/ strip line <> DELIM.

(** A line the loop drops without a trace when nothing was kept before it:
    commentary, or a blank line. *)
Definition discarded (line : list N) : Prop :=
  starts_with_space_or_tab (rstrip_nl line) = true \/ strip (rstrip_nl line) = [].

(** What stripping the joined text does to the lines: the first line loses
    its leading whitespace, an empty last line goes, and the last line left
    loses its trailing whitespace. *)
Definition lstrip_first (cl : list text) : list text :=
  match cl with
  | [] => []
  | x :: rest => lstrip_with isspace x :: rest
  end.

Definition drop_last_empty (cl : list text) : list text :=
  match last cl with
  | Some [] => removelast cl
  | _ => cl
  end.

Definition rstrip_last (cl : list text) : list text :=
  match last cl with
  | Some x => removelast cl ++ [rstrip_with isspace x]
  | None => []
  end.

Definition trim_ends (cl : list text) : list text :=
  rstrip_last (drop_last_empty (lstrip_first cl)).

(** ** Sample character data

    A fragment of the Unicode character database for closed examples: the
    Latin-1 letters, and the CJK unified ideographs U+4E00..U+9FA5, which are
    letters (category Lo) without case. *)
Definition ucd_sample (c : char) : char_props :=
  if in_range 192 214 c || in_range 216 222 c then CharProps true true false false
  else if in_range 223 246 c || in_range 248 255 c || (c =? 181)
  then CharProps true false true false
  else if in_range 19968 40869 c then CharProps true false false false
  else CharProps false false false false.

(** ** Sample inputs *)

(** The input of the specification's first example scenario. *)
Definition scenario1 : list N :=
  py "THE FOX AND THE GRAPES" ++ [NL; NL] ++
  py "  (a note about origin)" ++ [NL] ++
  py "A hungry fox saw some grapes." ++ [NL; NL] ++
  py "THE ANT AND THE GRASSHOPPER" ++ [NL] ++
  py "Winter came." ++ [NL].

(** A file of commentary and blank lines only. *)
Definition commentary_only : list N :=
  py "  (a note)" ++ [NL; NL; TAB] ++ py "x" ++ [NL; 12; NL].

Definition commentary_world : world :=
  {| files := {[ "f.txt" := commentary_only ]}; trace := [] |}.

(** The output the specification expects for its first scenario. *)
Definition scenario1_expected : list N :=
  py "###" ++ [NL] ++
  py "THE FOX AND THE GRAPES" ++ [NL; NL] ++
  py "A hungry fox saw some grapes." ++ [NL; NL] ++
  py "###" ++ [NL] ++
  py "THE ANT AND THE GRASSHOPPER" ++ [NL] ++
  py "Winter came." ++ [NL].

(** ** Kept lines and content *)

(** [line] passes the commentary test of the loop. *)
Definition not_commentary (line : list N) : bool :=
  negb (starts_with_space_or_tab (rstrip_nl line)).

(** The lines of a file that the loop looks at, without their newline. *)
Definition input_lines (t : list N) : list (list N) :=
  map rstrip_nl (List.filter not_commentary (readlines t)).

(** [x] reads as the delimiter once trimmed. *)
Definition reads_delim (x : list N) : bool := bool_decide (strip x = DELIM).

(** [x] carries text of its own: it is neither blank nor the delimiter. *)
Definition is_content (x : list N) : bool :=
  negb (reads_delim x) && negb (bool_decide (strip x = [])).

(** The delimiter lines of a sequence of lines. *)
Definition delimiter_lines (ls : list (list N)) : list (list N) :=
  List.filter (fun x => bool_decide (x = DELIM)) ls.

(** Every entry that reads ["###"] once trimmed is ["###"]. *)
Definition delims_exact (cl : list (list N)) : Prop :=
  Forall (fun x => strip x = DELIM -> x = DELIM) cl.

(** Two states the loop cannot tell apart: the same cleaned sequence, and
    previous line types that answer the loop's one question alike. *)
Definition same_to_the_loop (st1 st2 : pass_state) : Prop :=
  cleaned_lines st1 = cleaned_lines st2
  /\ title_or_text (previous_line_type st1)
     = title_or_text (previous_line_type st2).

(** In [ls] every line ["###"] is followed at once by a title line. *)
Definition delimiters_followed (ucd : N -> char_props) (ls : list (list N)) : Prop :=
  forall i, ls !! i = Some DELIM ->
    exists y, ls !! S i = Some y /\ is_title_line ucd y = true.

(** As [delimiters_followed], with nothing asked of the last line: the loop
    is between two lines. *)
Definition delims_open (ucd : N -> char_props) (cl : list (list N)) : Prop :=
  forall i, cl !! i = Some DELIM -> (S i < length cl)%nat ->
    exists y, cl !! S i = Some y /\ is_title_line ucd y = true.

(** What the whole-text strip may do to a line: it strips to the same text,
    and the delimiter stays the delimiter. *)
Definition same_written (x y : list N) : Prop :=
  strip x = strip y /\ (x = DELIM -> y = DELIM).

(** The lines of a file that the loop keeps as title or body text: not
    commentary and not blank, without their newline. *)
Definition not_blank (x : list N) : bool := negb (bool_decide (strip x = [])).

Definition kept_content (t : list N) : list (list N) :=
  List.filter not_blank (input_lines t).

(** [w] is the delimiter only if [x] is. *)
Definition delimiter_only_from (x w : list N) : Prop := w = DELIM -> x = DELIM.

(** The strip of the whole text, which takes the whitespace before the first
    line and after the last, makes a delimiter of no line of [ls]: a first line
    such as a form feed before ["###"], or a last line such as ["###"] and a
    space, would become one. *)
Definition strip_makes_no_delimiter (ls : list (list N)) : Prop :=
  Forall2 delimiter_only_from ls (rstrip_last (lstrip_first ls)).

(** How the two ends of the cleaned sequence [cl] sit to the kept lines
    [kc]: both are empty or neither; [cl] starts with the first kept line,
    or with the delimiter when that line is a title; without an empty last
    entry it ends with the last kept line; and it is then a single entry
    exactly when there is a single kept line and it is no title. *)
Definition ends_inv (ucd : N -> char_props) (cl kc : list (list N)) : Prop :=
  (cl = [] <-> kc = [])
  /\ (forall x, head kc = Some x ->
        head cl = Some (if is_title_line ucd x then DELIM else x))
  /\ last (drop_last_empty cl) = last kc
  /\ (length (drop_last_empty cl) = 1%nat
      <-> exists x, kc = [x] /\ is_title_line ucd x = false).

(** * Properties *)

(** The embedding on the specification's scenarios: the first one, and two
    blank lines between body lines collapsing into one. *)
Example scenario1_output : clean_text ucd_sample scenario1 = scenario1_expected.
Proof. by vm_compute. Qed.

Example scenario2_output :
  clean_text ucd_sample (py "One." ++ [NL; NL; NL] ++ py "Two." ++ [NL])
  = py "One." ++ [NL; NL] ++ py "Two." ++ [NL].
Proof. by vm_compute. Qed.

(** ** Stripping *)

Lemma drop_while_app_keep p (a b : list N) :
  existsb (fun c => negb (p c)) a = true ->
  drop_while p (a ++ b) = drop_while p a ++ b.
Proof.
  induction a as [|c a IH]; simpl; [done|].
  destruct (p c); simpl; [apply IH | done].
Qed.

Lemma drop_while_app_all p (a b : list N) :
  forallb p a = true -> drop_while p (a ++ b) = drop_while p b.
Proof.
  induction a as [|c a IH]; simpl; [done|].
  destruct (p c); simpl; [apply IH | done].
Qed.

Lemma drop_while_nil_iff p (a : list N) :
  drop_while p a = [] <-> forallb p a = true.
Proof.
  induction a as [|c a IH]; simpl; [done|].
  destruct (p c); simpl; [apply IH | split; done].
Qed.

Lemma drop_while_head p (a : list N) c :
  head (drop_while p a) = Some c -> p c = false.
Proof.
  induction a as [|d a IH]; simpl; [done|].
  destruct (p d) eqn:E; simpl; [apply IH | congruence].
Qed.

Lemma drop_while_fixed p (a : list N) :
  match head a with Some c => p c = false | None => True end ->
  drop_while p a = a.
Proof. destruct a as [|c a]; simpl; [done|]. by intros ->. Qed.

Lemma drop_while_suffix p (a : list N) :
  exists pre, a = pre ++ drop_while p a /\ forallb p pre = true.
Proof.
  induction a as [|c a (pre & E & Hp)]; simpl.
  - by exists [].
  - destruct (p c) eqn:Hc.
    + exists (c :: pre). simpl. rewrite Hc, Hp. split; [by f_equal | done].
    + by exists [].
Qed.

Lemma forallb_reverse p (a : list N) : forallb p (reverse a) = forallb p a.
Proof.
  induction a as [|c a IH]; [done|].
  rewrite reverse_cons, forallb_app, IH. simpl. destruct (p c), (forallb p a); done.
Qed.

Lemma existsb_reverse p (a : list N) : existsb p (reverse a) = existsb p a.
Proof.
  induction a as [|c a IH]; [done|].
  rewrite reverse_cons, existsb_app, IH. simpl. destruct (p c), (existsb p a); done.
Qed.

Lemma rstrip_with_app_keep p (a b : list N) :
  existsb (fun c => negb (p c)) b = true ->
  rstrip_with p (a ++ b) = a ++ rstrip_with p b.
Proof.
  intros H. unfold rstrip_with.
  rewrite reverse_app, drop_while_app_keep by (by rewrite existsb_reverse).
  by rewrite reverse_app, reverse_involutive.
Qed.

Lemma rstrip_with_app_all p (a b : list N) :
  forallb p b = true -> rstrip_with p (a ++ b) = rstrip_with p a.
Proof.
  intros H. unfold rstrip_with.
  by rewrite reverse_app, drop_while_app_all by (by rewrite forallb_reverse).
Qed.

Lemma rstrip_with_nil_iff p (a : list N) :
  rstrip_with p a = [] <-> forallb p a = true.
Proof.
  unfold rstrip_with. rewrite <- (forallb_reverse p a), <- drop_while_nil_iff.
  split; intros H.
  - apply (f_equal reverse) in H. by rewrite reverse_involutive in H.
  - by rewrite H.
Qed.

Lemma rstrip_with_last p (a : list N) c :
  last (rstrip_with p a) = Some c -> p c = false.
Proof.
  unfold rstrip_with. rewrite last_reverse. apply drop_while_head.
Qed.

Lemma rstrip_with_fixed p (a : list N) :
  match last a with Some c => p c = false | None => True end ->
  rstrip_with p a = a.
Proof.
  intros H. unfold rstrip_with. rewrite drop_while_fixed.
  - apply reverse_involutive.
  - by rewrite head_reverse.
Qed.

Lemma rstrip_with_prefix p (a : list N) :
  exists suf, a = rstrip_with p a ++ suf /\ forallb p suf = true.
Proof.
  destruct (drop_while_suffix p (reverse a)) as (pre & E & Hp).
  exists (reverse pre). split; [|by rewrite forallb_reverse].
  unfold rstrip_with. rewrite <- reverse_app, <- E. by rewrite reverse_involutive.
Qed.

Lemma forallb_true_negb_existsb p (a : list N) :
  forallb p a = negb (existsb (fun c => negb (p c)) a).
Proof.
  induction a as [|c a IH]; simpl; [done|]. rewrite IH. by destruct (p c).
Qed.

Lemma rstrip_with_cons p c (a : list N) :
  rstrip_with p (c :: a) =
  if forallb p a && p c then [] else c :: rstrip_with p a.
Proof.
  destruct (forallb p a) eqn:Ha; cbn [andb]; change (c :: a) with ([c] ++ a).
  - rewrite rstrip_with_app_all by done.
    apply rstrip_with_nil_iff in Ha. rewrite Ha.
    unfold rstrip_with. simpl. by destruct (p c).
  - rewrite rstrip_with_app_keep; [done|].
    rewrite forallb_true_negb_existsb in Ha. by destruct (existsb _ a).
Qed.

Lemma strip_nil_iff (a : list N) : strip a = [] <-> forallb isspace a = true.
Proof.
  unfold strip, lstrip_with. rewrite rstrip_with_nil_iff. split; intros H.
  - destruct (drop_while_suffix isspace a) as (pre & E & Hp).
    rewrite E, forallb_app, Hp, H. done.
  - destruct (drop_while_suffix isspace a) as (pre & E & Hp).
    rewrite E, forallb_app in H. by apply andb_true_iff in H as [_ ?].
Qed.

Lemma not_blank_existsb (a : list N) :
  strip a <> [] -> existsb (fun c => negb (isspace c)) a = true.
Proof.
  rewrite strip_nil_iff, forallb_true_negb_existsb.
  by destruct (existsb _ a).
Qed.

(** Whitespace around a text does not change what [strip] returns. *)
Lemma strip_sandwich (pre a suf : list N) :
  forallb isspace pre = true -> forallb isspace suf = true ->
  strip (pre ++ a ++ suf) = strip a.
Proof.
  intros Hp Hs. unfold strip, lstrip_with.
  rewrite drop_while_app_all by done.
  destruct (forallb isspace a) eqn:Ha.
  - rewrite drop_while_app_all by done.
    apply drop_while_nil_iff in Ha, Hs. by rewrite Ha, Hs.
  - rewrite drop_while_app_keep.
    + by rewrite rstrip_with_app_all.
    + rewrite forallb_true_negb_existsb in Ha. by destruct (existsb _ a).
Qed.

Lemma strip_decompose (a : list N) :
  exists pre suf, a = pre ++ strip a ++ suf
    /\ forallb isspace pre = true /\ forallb isspace suf = true.
Proof.
  destruct (drop_while_suffix isspace a) as (pre & E & Hp).
  destruct (rstrip_with_prefix isspace (drop_while isspace a)) as (suf & E' & Hs).
  exists pre, suf. split; [|done]. unfold strip, lstrip_with.
  by rewrite <- E', <- E.
Qed.

Lemma strip_idemp (a : list N) : strip (strip a) = strip a.
Proof.
  destruct (strip_decompose a) as (pre & suf & E & Hp & Hs).
  rewrite <- (strip_sandwich pre (strip a) suf) by done. by rewrite <- E.
Qed.

Lemma strip_lstrip (a : list N) : strip (lstrip_with isspace a) = strip a.
Proof.
  destruct (drop_while_suffix isspace a) as (pre & E & Hp).
  unfold lstrip_with.
  rewrite <- (strip_sandwich pre (drop_while isspace a) []) by done.
  by rewrite app_nil_r, <- E.
Qed.

Lemma strip_rstrip (a : list N) : strip (rstrip_with isspace a) = strip a.
Proof.
  destruct (rstrip_with_prefix isspace a) as (suf & E & Hs).
  rewrite <- (strip_sandwich [] (rstrip_with isspace a) suf) by done.
  simpl. by rewrite <- E.
Qed.

Lemma forallb_impl (p q : N -> bool) (a : list N) :
  (forall c, p c = true -> q c = true) -> forallb p a = true -> forallb q a = true.
Proof.
  intros Hpq. induction a as [|c a IH]; simpl; [done|].
  rewrite !andb_true_iff. intros [? ?]. auto.
Qed.

Lemma strip_rstrip_nl (a : list N) : strip (rstrip_nl a) = strip a.
Proof.
  destruct (rstrip_with_prefix (N.eqb NL) a) as (suf & E & Hs).
  unfold rstrip_nl.
  rewrite <- (strip_sandwich [] (rstrip_with (N.eqb NL) a) suf);
    [simpl; by rewrite <- E | done |].
  revert Hs. apply forallb_impl. intros c Hc. apply N.eqb_eq in Hc. by subst c.
Qed.

Lemma strip_head (a : list N) c : head (strip a) = Some c -> isspace c = false.
Proof.
  unfold strip, lstrip_with. intros H.
  destruct (rstrip_with_prefix isspace (drop_while isspace a)) as (suf & E & _).
  apply (drop_while_head isspace a). rewrite E.
  destruct (rstrip_with isspace (drop_while isspace a)); [done|]. done.
Qed.

Lemma strip_last (a : list N) c : last (strip a) = Some c -> isspace c = false.
Proof. apply rstrip_with_last. Qed.

Lemma strip_fixed (a : list N) :
  match head a with Some c => isspace c = false | None => True end ->
  match last a with Some c => isspace c = false | None => True end ->
  strip a = a.
Proof.
  intros Hh Hl. unfold strip, lstrip_with.
  rewrite drop_while_fixed by done. by apply rstrip_with_fixed.
Qed.

(** ** Joining and splitting lines *)

Lemma join_nl_cons l (ls : list (list N)) :
  ls <> [] -> join_nl (l :: ls) = l ++ NL :: join_nl ls.
Proof. by destruct ls. Qed.

Lemma join_nl_snoc (ls : list (list N)) l :
  ls <> [] -> join_nl (ls ++ [l]) = join_nl ls ++ NL :: l.
Proof.
  induction ls as [|x ls IH]; [done|]. intros _.
  destruct ls as [|y ls]; [done|].
  change ((x :: y :: ls) ++ [l]) with (x :: ((y :: ls) ++ [l])).
  rewrite join_nl_cons by done. rewrite IH by done.
  rewrite (join_nl_cons x (y :: ls)) by done. by rewrite <- app_assoc.
Qed.

Lemma readlines_line (l t : list N) :
  NL ∉ l -> readlines (l ++ NL :: t) = (l ++ [NL]) :: readlines t.
Proof.
  induction l as [|c l IH]; intros Hl; simpl; [done|].
  apply not_elem_of_cons in Hl as [Hc Hl].
  destruct (N.eqb_spec c NL) as [->|_]; [done|]. by rewrite IH.
Qed.

Lemma readlines_join (ls : list (list N)) :
  ls <> [] -> Forall (fun l => NL ∉ l) ls ->
  readlines (join_nl ls ++ [NL]) = map (fun l => l ++ [NL]) ls.
Proof.
  induction ls as [|l ls IH]; [done|]. intros _ Hall.
  apply Forall_cons in Hall as [Hl Hall].
  destruct ls as [|l2 ls].
  - simpl. by rewrite readlines_line.
  - rewrite join_nl_cons by done. rewrite <- app_assoc.
    change ((NL :: join_nl (l2 :: ls)) ++ [NL])
      with (NL :: (join_nl (l2 :: ls) ++ [NL])).
    rewrite readlines_line by done. rewrite IH by done. done.
Qed.

Lemma rstrip_nl_line (l : list N) : NL ∉ l -> rstrip_nl (l ++ [NL]) = l.
Proof.
  intros Hl. unfold rstrip_nl. rewrite rstrip_with_app_all by done.
  apply rstrip_with_fixed. destruct (last l) as [c|] eqn:E; [|done].
  apply N.eqb_neq. intros <-. apply Hl. apply last_Some_elem_of in E. done.
Qed.

Lemma lines_of_join (ls : list (list N)) :
  ls <> [] -> Forall (fun l => NL ∉ l) ls ->
  lines_of (join_nl ls ++ [NL]) = ls.
Proof.
  intros Hne Hall. unfold lines_of. rewrite readlines_join by done.
  rewrite map_map. rewrite <- (map_id ls) at 2. apply map_ext_Forall.
  eapply Forall_impl; [exact Hall|]. intros l Hl. simpl. by apply rstrip_nl_line.
Qed.

(** Every line [readlines] returns has its only newline at its end. *)
Lemma readlines_shape (t : list N) :
  Forall (fun l => NL ∉ rstrip_nl l) (readlines t).
Proof.
  induction t as [|c t IH]; simpl; [constructor|].
  destruct (N.eqb_spec c NL) as [->|Hc].
  - constructor; [|done]. vm_compute. apply not_elem_of_nil.
  - destruct (readlines t) as [|l ls].
    + repeat constructor. unfold rstrip_nl. rewrite rstrip_with_cons.
      destruct (N.eqb_spec NL c); [congruence|]. rewrite andb_false_r.
      apply not_elem_of_cons. split; [done|]. apply not_elem_of_nil.
    + apply Forall_cons in IH as [Hl Hls]. constructor; [|done].
      unfold rstrip_nl in *. rewrite rstrip_with_cons.
      destruct (N.eqb_spec NL c); [congruence|]. rewrite andb_false_r.
      apply not_elem_of_cons. done.
Qed.

(** ** The shape of the cleaned sequence *)

Section Pass.

Variable ucd : char -> char_props.

Local Abbreviation entry_ok := (entry_ok ucd).
Local Abbreviation canonical_from := (canonical_from ucd).
Local Abbreviation canonical := (canonical ucd).
Local Abbreviation pass_inv := (pass_inv ucd).

Lemma is_title_line_strip (x y : list N) :
  strip x = strip y -> is_title_line ucd x = is_title_line ucd y.
Proof. unfold is_title_line. by intros ->. Qed.

Lemma title_not_blank (x : list N) :
  is_title_line ucd x = true -> strip x <> [].
Proof.
  unfold is_title_line. intros H E. by rewrite E in H.
Qed.

Lemma delim_not_title (x : list N) :
  strip x = DELIM -> is_title_line ucd x = false.
Proof. unfold is_title_line. by intros ->. Qed.

Lemma last_is_not_false x (cl : list (list N)) :
  last_is_not x cl = false <-> last cl = Some x.
Proof.
  unfold last_is_not. destruct (last cl) as [y|]; [|done].
  case_bool_decide; simpl; split; congruence.
Qed.

Lemma last_is_not_true x (cl : list (list N)) :
  last_is_not x cl = true <-> last cl <> Some x.
Proof.
  rewrite <- last_is_not_false. destruct (last_is_not x cl); split; congruence.
Qed.

Lemma canonical_from_snoc prev (cl : list (list N)) x :
  canonical_from prev (cl ++ [x])
  <-> canonical_from prev cl /\ entry_ok (last_or prev cl) x.
Proof.
  revert prev. induction cl as [|y cl IH]; intros prev; simpl.
  - unfold last_or. simpl. tauto.
  - rewrite IH. unfold last_or. rewrite last_cons.
    destruct (last cl); tauto.
Qed.

Lemma canonical_snoc (cl : list (list N)) x :
  canonical (cl ++ [x]) <-> canonical cl /\ entry_ok (last cl) x.
Proof.
  change (canonical_from None (cl ++ [x])
          <-> canonical_from None cl /\ entry_ok (last cl) x).
  rewrite canonical_from_snoc. unfold last_or.
  by destruct (last cl).
Qed.

Lemma canonical_from_entries prev (cl : list (list N)) :
  canonical_from prev cl ->
  Forall (fun x => (NL ∉ x) /\ starts_with_space_or_tab x = false
                   /\ (strip x = [] -> x = [])) cl.
Proof.
  revert prev. induction cl as [|y cl IH]; intros prev; simpl; [constructor|].
  intros [(? & ? & Hb & _) Hc]. constructor; [|by eapply IH].
  repeat split; [done..|]. intros E. by apply Hb.
Qed.

Lemma canonical_last_not_blank (cl : list (list N)) p :
  canonical cl -> last cl = Some p -> p <> [] -> strip p <> [].
Proof.
  intros Hc Hl Hp E. apply canonical_from_entries in Hc.
  apply last_Some_elem_of in Hl. rewrite Forall_forall in Hc.
  apply Hc in Hl as (_ & _ & Hb). auto.
Qed.

Lemma entry_ok_DELIM prev : entry_ok prev DELIM.
Proof.
  repeat split; try done.
  - rewrite list_elem_of_In. unfold NL, DELIM. simpl. intuition discriminate.
Qed.

Lemma step_inv st l :
  NL ∉ rstrip_nl l -> pass_inv st -> pass_inv (step ucd st l).
Proof.
  intros Hnl [Hc Hne]. unfold step.
  destruct (starts_with_space_or_tab (rstrip_nl l)) eqn:Hind; [done|].
  destruct (is_title_line ucd (rstrip_nl l)) eqn:Htitle.
  - split; simpl; [|by intros _ ?%app_nil_r_inv].
    assert (entry_ok (Some DELIM) (rstrip_nl l)) as Hok.
    { split; [done|]. split; [done|]. split; [|done].
      intros E. by apply title_not_blank in Htitle. }
    destruct (last_is_not DELIM (cleaned_lines st)) eqn:Hlast.
    + apply canonical_from_snoc. split.
      * apply canonical_from_snoc. split; [done|]. apply entry_ok_DELIM.
      * unfold last_or. by rewrite last_snoc.
    + apply last_is_not_false in Hlast.
      apply canonical_from_snoc. split; [done|]. unfold last_or. by rewrite Hlast.
  - case_bool_decide as Hblank.
    + split; simpl; [|done].
      destruct (title_or_text (previous_line_type st)) eqn:Ht; simpl; [|done].
      destruct (last_is_not [] (cleaned_lines st)) eqn:Hlast; [|done].
      apply canonical_from_snoc. split; [done|].
      split; [apply not_elem_of_nil|]. split; [done|]. split; [|done].
      intros _. split; [done|].
      apply last_is_not_true in Hlast.
      destruct (last (cleaned_lines st)) as [p|] eqn:Hp.
      * exists p. unfold last_or. rewrite Hp. split; [done|].
        apply (canonical_last_not_blank (cleaned_lines st)); [done..|congruence].
      * apply last_None in Hp. by destruct Hne.
    + split; simpl; [|by intros _ ?%app_nil_r_inv].
      apply canonical_from_snoc. split; [done|].
      split; [done|]. split; [done|]. split; intros E; congruence.
Qed.

Lemma foldl_step_inv (I : pass_state -> Prop) (P : list N -> Prop) :
  (forall st l, P l -> I st -> I (step ucd st l)) ->
  forall lines st, Forall P lines -> I st -> I (foldl (step ucd) st lines).
Proof.
  intros Hstep lines. induction lines as [|l lines IH]; intros st Hall Hst; [done|].
  apply Forall_cons in Hall as [Hl Hall]. simpl. apply IH; auto.
Qed.

Lemma run_pass_inv (t : list N) : pass_inv (run_pass ucd (readlines t)).
Proof.
  unfold run_pass.
  apply (foldl_step_inv pass_inv (fun l => NL ∉ rstrip_nl l)).
  - intros st l. apply step_inv.
  - apply readlines_shape.
  - split; simpl; done.
Qed.

(** ** The whole-text strip, seen on the lines *)

Lemma canonical_first_not_blank x (cl : list (list N)) :
  canonical (x :: cl) -> strip x <> [].
Proof. intros [(_ & _ & Hb & _) _] E. by destruct (Hb E) as (_ & p & ? & _). Qed.

Lemma lstrip_join x (cl : list (list N)) :
  strip x <> [] ->
  lstrip_with isspace (join_nl (x :: cl)) = join_nl (lstrip_first (x :: cl)).
Proof.
  intros Hx. destruct cl as [|y cl]; [done|]. simpl lstrip_first.
  rewrite !join_nl_cons by done. unfold lstrip_with.
  apply drop_while_app_keep. by apply not_blank_existsb.
Qed.

Lemma rstrip_join_snoc (cl : list (list N)) x :
  strip x <> [] ->
  rstrip_with isspace (join_nl (cl ++ [x]))
  = join_nl (cl ++ [rstrip_with isspace x]).
Proof.
  intros Hx. destruct (decide (cl = [])) as [->|Hne]; [done|].
  rewrite !join_nl_snoc by done.
  change (NL :: x) with ([NL] ++ x). rewrite app_assoc.
  rewrite rstrip_with_app_keep by (by apply not_blank_existsb).
  by rewrite <- app_assoc.
Qed.

Lemma rstrip_join_empty (cl : list (list N)) :
  cl <> [] ->
  rstrip_with isspace (join_nl (cl ++ [[]])) = rstrip_with isspace (join_nl cl).
Proof.
  intros Hne. rewrite join_nl_snoc by done. by rewrite rstrip_with_app_all.
Qed.

Lemma lstrip_no_nl (x : list N) : NL ∉ x -> NL ∉ lstrip_with isspace x.
Proof.
  intros H Hin. apply H. destruct (drop_while_suffix isspace x) as (pre & E & _).
  rewrite E. apply elem_of_app. by right.
Qed.

Lemma rstrip_no_nl (x : list N) : NL ∉ x -> NL ∉ rstrip_with isspace x.
Proof.
  intros H Hin. apply H. destruct (rstrip_with_prefix isspace x) as (suf & E & _).
  rewrite E. apply elem_of_app. by left.
Qed.

Lemma lstrip_not_indented (x : list N) :
  starts_with_space_or_tab (lstrip_with isspace x) = false.
Proof.
  destruct (lstrip_with isspace x) as [|c y] eqn:E; [done|].
  assert (isspace c = false) as Hc.
  { apply (drop_while_head isspace x). unfold lstrip_with in E. by rewrite E. }
  simpl. destruct (N.eqb_spec c SPACE) as [->|_]; [done|].
  destruct (N.eqb_spec c TAB) as [->|_]; done.
Qed.

Lemma rstrip_not_indented (x : list N) :
  starts_with_space_or_tab x = false ->
  starts_with_space_or_tab (rstrip_with isspace x) = false.
Proof.
  destruct (rstrip_with_prefix isspace x) as (suf & E & _).
  destruct (rstrip_with isspace x) as [|c y]; [done|]. by rewrite E.
Qed.

Lemma lstrip_DELIM (x : list N) : x = DELIM -> lstrip_with isspace x = DELIM.
Proof. by intros ->. Qed.

(** Whether an entry is in order after [prev] depends on [prev] only through
    what it strips to and whether it is the delimiter. *)
Lemma entry_ok_prev p p' x :
  strip p' = strip p -> (p = DELIM -> p' = DELIM) ->
  entry_ok (Some p) x -> entry_ok (Some p') x.
Proof.
  intros Hs Hd (H1 & H2 & H3 & H4). split; [done|]. split; [done|]. split.
  - intros E. destruct (H3 E) as (-> & q & [= <-] & Hq).
    split; [done|]. exists p'. by rewrite Hs.
  - intros E. apply H4 in E as [= ->]. by rewrite Hd.
Qed.

Lemma canonical_lstrip_first (cl : list (list N)) :
  canonical cl -> canonical (lstrip_first cl).
Proof.
  destruct cl as [|x cl]; [done|]. intros Hc.
  pose proof (canonical_first_not_blank _ _ Hc) as Hx.
  destruct Hc as [(H1 & H2 & H3 & H4) Hc]. split.
  - split; [by apply lstrip_no_nl|]. split; [apply lstrip_not_indented|].
    rewrite strip_lstrip, (is_title_line_strip _ x) by apply strip_lstrip.
    split; [done|]. intros E. by apply H4 in E.
  - destruct cl as [|y cl]; [done|]. destruct Hc as [Hy Hc]. split; [|done].
    eapply entry_ok_prev; [apply strip_lstrip | apply lstrip_DELIM | done].
Qed.

Lemma canonical_rstrip_snoc (cl : list (list N)) x :
  canonical (cl ++ [x]) -> canonical (cl ++ [rstrip_with isspace x]).
Proof.
  rewrite !canonical_snoc. intros [Hc (H1 & H2 & H3 & H4)].
  split; [done|]. split; [by apply rstrip_no_nl|].
  split; [by apply rstrip_not_indented|].
  rewrite strip_rstrip, (is_title_line_strip _ x) by apply strip_rstrip.
  split; [|done]. intros E. destruct (H3 E) as [-> ?]. done.
Qed.

(** Stripping the joined text is [trim_ends] on the lines, and the lines stay
    canonical. *)
Lemma strip_join_canonical (cl : list (list N)) :
  canonical cl -> cl <> [] ->
  strip (join_nl cl) = join_nl (trim_ends cl)
  /\ canonical (trim_ends cl) /\ trim_ends cl <> [].
Proof.
  intros Hc Hne. destruct cl as [|x0 cl0]; [done|].
  pose proof (canonical_first_not_blank _ _ Hc) as Hx0.
  unfold strip. rewrite lstrip_join by done.
  apply canonical_lstrip_first in Hc. unfold trim_ends.
  assert (lstrip_first (x0 :: cl0) <> []) as Hne1 by done.
  destruct (lstrip_first (x0 :: cl0)) as [|z pre _] using rev_ind; [done|].
  clear Hne1.
  destruct (decide (z = [])) as [->|Hz].
  - (* the last line is empty and another line precedes it *)
    pose proof Hc as Hc'. apply canonical_snoc in Hc' as [Hp (_ & _ & Hb & _)].
    destruct (Hb eq_refl) as (_ & p & Hlast & Hpnb).
    apply last_Some in Hlast as [pre' ->].
    unfold drop_last_empty. rewrite last_snoc, removelast_last.
    unfold rstrip_last. rewrite last_snoc, removelast_last.
    rewrite rstrip_join_empty by (by destruct pre').
    rewrite rstrip_join_snoc by done.
    split; [done|]. split; [by apply canonical_rstrip_snoc | by destruct pre'].
  - (* the last line is not empty *)
    assert (strip z <> []) as Hnb.
    { intros E. apply canonical_snoc in Hc as [_ (_ & _ & Hb & _)].
      by destruct (Hb E). }
    unfold drop_last_empty. rewrite last_snoc.
    destruct z as [|c z]; [done|].
    unfold rstrip_last. rewrite last_snoc, removelast_last.
    rewrite rstrip_join_snoc by done.
    split; [done|]. split; [by apply canonical_rstrip_snoc | by destruct pre].
Qed.

(** ** A pass over lines that are already canonical *)

Lemma title_or_text_not_blank (p : list N) :
  strip p <> [] -> title_or_text (Some (line_type_of ucd p)) = true.
Proof.
  intros Hp. unfold line_type_of. destruct (is_title_line ucd p); [done|].
  by case_bool_decide.
Qed.

(** The pass copies a canonical sequence of lines as it is. *)
Lemma run_pass_canonical (cl : list (list N)) :
  canonical cl ->
  run_pass ucd (map (fun l => l ++ [NL]) cl)
  = {| cleaned_lines := cl;
       previous_line_type := line_type_of ucd <$> last cl |}.
Proof.
  induction cl as [|x cl IH] using rev_ind; [done|].
  rewrite canonical_snoc. intros [Hc (H1 & H2 & H3 & H4)].
  unfold run_pass in *. rewrite map_app, foldl_app, IH by done. clear IH.
  rewrite last_snoc. simpl. unfold step. rewrite rstrip_nl_line by done.
  rewrite H2. cbn [cleaned_lines previous_line_type].
  unfold line_type_of at 2.
  destruct (is_title_line ucd x) eqn:Htitle.
  - specialize (H4 eq_refl). apply last_is_not_false in H4. by rewrite H4.
  - case_bool_decide as Hblank; [|done].
    destruct (H3 Hblank) as (-> & p & Hp & Hpnb).
    rewrite Hp. cbn [fmap option_fmap option_map].
    rewrite title_or_text_not_blank by done.
    assert (last_is_not [] cl = true) as ->; [|done].
    apply last_is_not_true. rewrite Hp. intros [= ->]. done.
Qed.

(** The written text, as lines: either nothing was kept and the text is a
    lone newline, or its lines are the cleaned lines trimmed at both ends,
    and they are canonical. *)
Lemma clean_text_lines (t : list N) :
  let cl := cleaned_lines (run_pass ucd (readlines t)) in
  (cl = [] /\ clean_text ucd t = [NL])
  \/ (cl <> [] /\ canonical (trim_ends cl) /\ trim_ends cl <> []
      /\ clean_text ucd t = join_nl (trim_ends cl) ++ [NL]
      /\ lines_of (clean_text ucd t) = trim_ends cl).
Proof.
  intros cl. destruct (run_pass_inv t) as [Hc _]. fold cl in Hc.
  unfold clean_text, final_text. fold cl.
  destruct (decide (cl = [])) as [->|Hne]; [by left|]. right.
  destruct (strip_join_canonical cl Hc Hne) as (E & Hc' & Hne').
  rewrite E. repeat (split; [done|]).
  apply lines_of_join; [done|].
  apply canonical_from_entries in Hc'.
  eapply Forall_impl; [exact Hc'|]. by intros x (? & _).
Qed.

Lemma last_join_nl (cl : list (list N)) l :
  l <> [] -> last (join_nl (cl ++ [l])) = last l.
Proof.
  intros Hl. destruct (decide (cl = [])) as [->|Hne]; [done|].
  rewrite join_nl_snoc by done. rewrite last_app, last_cons.
  destruct (last l) eqn:E; [done|]. by apply last_None in E.
Qed.

(** The last line of the written text is not blank, and the text before the
    final newline ends as that line ends. *)
Lemma trim_ends_last (cl : list (list N)) :
  canonical cl -> cl <> [] ->
  exists l, last (trim_ends cl) = Some l /\ strip l <> []
            /\ last (strip (join_nl cl)) = last l.
Proof.
  intros Hc Hne. destruct (strip_join_canonical cl Hc Hne) as (E & Hc' & Hne').
  destruct (last (trim_ends cl)) as [l|] eqn:Hl; [|by apply last_None in Hl].
  exists l. split; [done|]. apply last_Some in Hl as [pre Hpre].
  rewrite E, Hpre. rewrite Hpre in Hc'.
  assert (strip l <> []) as Hnb.
  { intros Hb. apply canonical_snoc in Hc' as [_ (_ & _ & H & _)].
    destruct (H Hb) as (-> & p & Hp & _).
    assert (pre <> []) as Hpne by (by intros ->).
    assert (last (strip (join_nl cl)) = Some NL) as Hlast.
    { rewrite E, Hpre, join_nl_snoc by done. by rewrite last_app. }
    by apply strip_last in Hlast. }
  split; [done|]. apply last_join_nl. intros ->. by apply Hnb.
Qed.

Lemma clean_text_fixed (cl : list (list N)) :
  canonical cl -> cl <> [] ->
  match head (join_nl cl) with Some c => isspace c = false | None => True end ->
  match last (join_nl cl) with Some c => isspace c = false | None => True end ->
  clean_text ucd (join_nl cl ++ [NL]) = join_nl cl ++ [NL].
Proof.
  intros Hc Hne Hh Hl. unfold clean_text.
  rewrite readlines_join; [|done|].
  - rewrite run_pass_canonical by done. unfold final_text. simpl.
    by rewrite strip_fixed.
  - apply canonical_from_entries in Hc.
    eapply Forall_impl; [exact Hc|]. by intros x (? & _).
Qed.

End Pass.

(** ** Neighbouring lines *)

Section Neighbours.

Variable ucd : char -> char_props.

Local Abbreviation entry_ok := (entry_ok ucd).
Local Abbreviation canonical_from := (canonical_from ucd).
Local Abbreviation canonical := (canonical ucd).
Local Abbreviation delim_then_title := (delim_then_title ucd).

(** In a canonical sequence every entry is in order after the one before. *)
Lemma canonical_from_lookup prev (cl : list (list N)) (i : nat) x :
  canonical_from prev cl -> cl !! i = Some x ->
  entry_ok (match i with O => prev | S j => cl !! j end) x.
Proof.
  revert prev i. induction cl as [|y cl IH]; intros prev i; [done|].
  intros [Hy Hc] Hi. destruct i as [|i]; simpl in *.
  - by injection Hi as ->.
  - specialize (IH _ _ Hc Hi). by destruct i.
Qed.

Lemma canonical_title_after_delim (cl : list (list N)) (i : nat) x :
  canonical cl -> cl !! i = Some x -> is_title_line ucd x = true ->
  exists j, i = S j /\ cl !! j = Some DELIM.
Proof.
  intros Hc Hi Ht. destruct (canonical_from_lookup _ _ _ _ Hc Hi) as (_ & _ & _ & H).
  specialize (H Ht). destruct i as [|j]; [done|]. by exists j.
Qed.

Lemma canonical_no_two_empty (cl : list (list N)) (i : nat) :
  canonical cl -> ~ (cl !! i = Some [] /\ cl !! (S i) = Some []).
Proof.
  intros Hc [H0 H1].
  destruct (canonical_from_lookup _ _ _ _ Hc H1) as (_ & _ & H & _).
  destruct (H eq_refl) as (_ & p & Hp & Hnb). rewrite H0 in Hp.
  by injection Hp as <-.
Qed.

(** *** Delimiters are followed by titles *)

Lemma delim_then_title_snoc (cl : list (list N)) y :
  delim_then_title cl -> strip y <> DELIM -> delim_then_title (cl ++ [y]).
Proof.
  intros Hd Hy i x Hi Hx. apply lookup_snoc_Some in Hi as [[Hlt Hi]|[_ ->]]; [|done].
  destruct (Hd i x Hi Hx) as (z & Hz & Ht). exists z. split; [|done].
  rewrite lookup_app_l; [done|]. by eapply lookup_lt_Some.
Qed.

Lemma delim_then_title_snoc2 (cl : list (list N)) d y :
  delim_then_title cl -> is_title_line ucd y = true ->
  delim_then_title ((cl ++ [d]) ++ [y]).
Proof.
  intros Hd Hy i x Hi Hx.
  apply lookup_snoc_Some in Hi as [[Hlt Hi]|[_ <-]].
  - apply lookup_snoc_Some in Hi as [[Hlt' Hi]|[-> ->]].
    + destruct (Hd i x Hi Hx) as (z & Hz & Ht). exists z. split; [|done].
      rewrite <- app_assoc. rewrite lookup_app_l; [done|]. by eapply lookup_lt_Some.
    + exists y. split; [|done].
      rewrite lookup_app_r by (rewrite length_app; simpl; lia).
      rewrite length_app. simpl. by replace (S (length cl) - (length cl + 1))%nat with O by lia.
  - by rewrite (delim_not_title ucd y Hx) in Hy.
Qed.

Lemma step_delim_then_title st l :
  no_delimiter_text l -> delim_then_title (cleaned_lines st) ->
  delim_then_title (cleaned_lines (step ucd st l)).
Proof.
  intros Hl Hd. unfold step.
  destruct (starts_with_space_or_tab (rstrip_nl l)) eqn:Hind; [done|].
  destruct Hl as [|Hl]; [congruence|]. rewrite <- strip_rstrip_nl in Hl.
  destruct (is_title_line ucd (rstrip_nl l)) eqn:Htitle; simpl.
  - destruct (last_is_not DELIM (cleaned_lines st)).
    + by apply delim_then_title_snoc2.
    + by apply delim_then_title_snoc.
  - case_bool_decide; simpl.
    + destruct (title_or_text _ && last_is_not [] _); [|done].
      by apply delim_then_title_snoc.
    + by apply delim_then_title_snoc.
Qed.

Lemma same_stripped_refl (cl : list (list N)) : Forall2 same_stripped cl cl.
Proof. induction cl; by constructor. Qed.

Lemma same_stripped_lstrip_first (cl : list (list N)) :
  Forall2 same_stripped cl (lstrip_first cl).
Proof.
  destruct cl as [|x cl]; [constructor|]. constructor.
  - unfold same_stripped. by rewrite strip_lstrip.
  - apply same_stripped_refl.
Qed.

Lemma same_stripped_rstrip_last (cl : list (list N)) :
  Forall2 same_stripped cl (rstrip_last cl).
Proof.
  unfold rstrip_last. destruct (last cl) as [x|] eqn:E.
  - apply last_Some in E as [cl' ->]. rewrite removelast_last.
    apply Forall2_app; [apply same_stripped_refl|]. constructor; [|constructor].
    unfold same_stripped. by rewrite strip_rstrip.
  - apply last_None in E as ->. constructor.
Qed.

End Neighbours.

(** * The claims *)

(** Cleaning the text that a run wrote gives that same text again. *)
Lemma clean_text_twice (ucd : char -> char_props) (t : list N) :
  clean_text ucd (clean_text ucd t) = clean_text ucd t.
Proof.
  destruct (clean_text_lines ucd t) as [[_ ->]|(Hne & Hc & Hne' & E & _)];
    [done|].
  rewrite E. apply clean_text_fixed; [done..| |].
  - destruct (head _) as [c|] eqn:Hh; [|done].
    assert (strip (join_nl (cleaned_lines (run_pass ucd (readlines t))))
            = join_nl (trim_ends (cleaned_lines (run_pass ucd (readlines t)))))
      as Es.
    { unfold clean_text, final_text in E. by apply app_inv_tail in E. }
    rewrite <- Es in Hh. by apply strip_head in Hh.
  - destruct (last _) as [c|] eqn:Hl; [|done].
    assert (strip (join_nl (cleaned_lines (run_pass ucd (readlines t))))
            = join_nl (trim_ends (cleaned_lines (run_pass ucd (readlines t)))))
      as Es.
    { unfold clean_text, final_text in E. by apply app_inv_tail in E. }
    rewrite <- Es in Hl. by apply strip_last in Hl.
Qed.

(** C6. Blank-line collapsing: the lines of the written text never hold two
    empty lines in a row; and a line of the written text that is blank (of
    whitespace only) is empty, so neither do two blank lines follow each
    other. *)
Theorem no_consecutive_empty_lines (ucd : char -> char_props) (t : list N) :
  (forall i, ~ (lines_of (clean_text ucd t) !! i = Some []
                /\ lines_of (clean_text ucd t) !! S i = Some []))
  /\ Forall (fun l => strip l = [] -> l = []) (lines_of (clean_text ucd t)).
Proof.
  destruct (clean_text_lines ucd t) as [[_ ->]|(_ & Hc & _ & _ & ->)].
  - split; [by intros i [_ ?] | by repeat constructor].
  - split; [intros i; by apply (canonical_no_two_empty ucd)|].
    apply canonical_from_entries in Hc.
    eapply Forall_impl; [exact Hc|]. by intros x (_ & _ & ?).
Qed.

(** C7. No indentation survives: no line of the written text starts with a
    space or a tab; and a line of the input that starts with one is dropped
    by the loop with both loop variables left as they were. *)
Theorem no_indentation_survives (ucd : char -> char_props) (t : list N) :
  Forall (fun l => starts_with_space_or_tab l = false)
         (lines_of (clean_text ucd t))
  /\ (forall st line,
        starts_with_space_or_tab (rstrip_nl line) = true ->
        step ucd st line = st).
Proof.
  split.
  - destruct (clean_text_lines ucd t) as [[_ ->]|(_ & Hc & _ & _ & ->)].
    + by repeat constructor.
    + apply canonical_from_entries in Hc.
      eapply Forall_impl; [exact Hc|]. by intros x (_ & ? & _).
  - intros st line H. unfold step. by rewrite H.
Qed.


Example two_delimiter_lines_from_input :
  lines_of (clean_text ucd_sample (py "###" ++ [NL] ++ py "###" ++ [NL]))
  = [DELIM; DELIM].
Proof. by vm_compute. Qed.

(** C8. Trailing newline: the written text is some text followed by one
    newline, and that text does not end with a newline; it is empty (the
    written text is the lone newline) or its last line is not blank. *)
Theorem trailing_newline (ucd : char -> char_props) (t : list N) :
  exists body,
    clean_text ucd t = body ++ [NL]
    /\ last body <> Some NL
    /\ (body = []
        \/ exists l, last (lines_of (clean_text ucd t)) = Some l
                     /\ strip l <> []).
Proof.
  exists (strip (join_nl (cleaned_lines (run_pass ucd (readlines t))))).
  split; [done|]. split.
  - intros H. by apply strip_last in H.
  - destruct (clean_text_lines ucd t) as [[-> _]|(Hne & _ & _ & _ & ->)];
      [by left|right].
    destruct (run_pass_inv ucd t) as [Hc _].
    destruct (trim_ends_last ucd _ Hc Hne) as (l & Hl & Hnb & _). by exists l.
Qed.

(** C10. Whole-text strip: the written text without its final newline
    neither starts nor ends with a whitespace character, and the last line of
    the written text does not end with a space or a tab. *)
Theorem written_text_stripped (ucd : char -> char_props) (t : list N) :
  exists body,
    clean_text ucd t = body ++ [NL]
    /\ match head body with Some c => isspace c = false | None => True end
    /\ match last body with Some c => isspace c = false | None => True end
    /\ match last (lines_of (clean_text ucd t)) with
       | Some l => last l <> Some SPACE /\ last l <> Some TAB
       | None => True
       end.
Proof.
  exists (strip (join_nl (cleaned_lines (run_pass ucd (readlines t))))).
  split; [done|]. split; [|split].
  - destruct (head _) eqn:E; [|done]. by apply strip_head in E.
  - destruct (last _) eqn:E; [|done]. by apply strip_last in E.
  - destruct (clean_text_lines ucd t) as [[_ ->]|(Hne & _ & _ & _ & ->)].
    + by vm_compute.
    + destruct (run_pass_inv ucd t) as [Hc _].
      destruct (trim_ends_last ucd _ Hc Hne) as (l & -> & _ & Hl).
      split; intros E; rewrite <- Hl in E; by apply strip_last in E.
Qed.

(** ** The script as a whole *)

(** On a file that exists the script reads it once, replaces it by the
    cleaned text and prints its notice. *)
Lemma clean_fables_found (ucd : char -> char_props) file_path w (t : list N) :
  files w !! file_path = Some t ->
  clean_fables ucd file_path w
  = (inr tt,
     {| files := <[file_path := clean_text ucd t]> (files w);
        trace := trace w ++ [EvRead file_path;
                             EvWrite file_path (clean_text ucd t);
                             EvPrint (finished_message file_path)] |}).
Proof.
  intros H. unfold clean_fables, bind, os_path_exists, file_readlines,
    file_write, print, clean_text.
  rewrite H. simpl. rewrite H. simpl. by rewrite <- !app_assoc.
Qed.

(** On a path that names no file the script raises and the world stays as it
    was. *)
Lemma clean_fables_not_found (ucd : char -> char_props) file_path w :
  files w !! file_path = None ->
  clean_fables ucd file_path w
  = (inl (FileNotFoundError (not_found_message file_path)), w).
Proof.
  intros H. unfold clean_fables, bind, os_path_exists, raise. by rewrite H.
Qed.

(** C5. Missing file: on a path that names no file the script raises
    [FileNotFoundError], and nothing else happens: the files are left as they
    were, and so is the trace, so that no file was read or written and
    nothing was printed. *)
Theorem clean_fables_missing_file (ucd : char -> char_props) file_path w :
  files w !! file_path = None ->
  (clean_fables ucd file_path w).1
  = inl (FileNotFoundError (not_found_message file_path))
  /\ files (clean_fables ucd file_path w).2 = files w
  /\ trace (clean_fables ucd file_path w).2 = trace w.
Proof.
  intros H. by rewrite clean_fables_not_found.
Qed.

Lemma clean_fables_missing_file_empty_world :
  (clean_fables ucd_sample "data/cleaned/aesop_fables_clean.txt"
     {| files := ∅; trace := [] |}).1
  = inl (FileNotFoundError
           "Input file not found at data/cleaned/aesop_fables_clean.txt")
  /\ files (clean_fables ucd_sample "data/cleaned/aesop_fables_clean.txt"
              {| files := ∅; trace := [] |}).2 = ∅
  /\ trace (clean_fables ucd_sample "data/cleaned/aesop_fables_clean.txt"
              {| files := ∅; trace := [] |}).2 = [].
Proof.
  apply (clean_fables_missing_file ucd_sample
           "data/cleaned/aesop_fables_clean.txt" {| files := ∅; trace := [] |}).
  apply lookup_empty.
Defined.

Lemma step_discarded (ucd : char -> char_props) st line :
  discarded line ->
  cleaned_lines st = [] /\ title_or_text (previous_line_type st) = false ->
  cleaned_lines (step ucd st line) = []
  /\ title_or_text (previous_line_type (step ucd st line)) = false.
Proof.
  intros Hd [Hcl Hty]. unfold step.
  destruct (starts_with_space_or_tab (rstrip_nl line)) eqn:Hind; [done|].
  destruct Hd as [|Hb]; [congruence|].
  destruct (is_title_line ucd (rstrip_nl line)) eqn:Ht;
    [by apply title_not_blank in Ht|].
  rewrite bool_decide_eq_true_2 by done. by rewrite Hty.
Qed.

Lemma clean_text_all_discarded (ucd : char -> char_props) (t : list N) :
  Forall discarded (readlines t) -> clean_text ucd t = [NL].
Proof.
  intros Hall. unfold clean_text, run_pass.
  pose proof (foldl_step_inv ucd
    (fun st => cleaned_lines st = []
               /\ title_or_text (previous_line_type st) = false)
    discarded (step_discarded ucd) (readlines t) initial_state Hall) as [-> _];
    done.
Qed.

(** C9. Empty result: when the file exists and every line of it is dropped
    (commentary, or blank), the script replaces the file by the single
    newline. *)
Theorem clean_fables_all_discarded (ucd : char -> char_props) file_path w (t : list N) :
  files w !! file_path = Some t ->
  Forall discarded (readlines t) ->
  exists w',
    clean_fables ucd file_path w = (inr tt, w')
    /\ files w' = <[file_path := [NL]]> (files w).
Proof.
  intros Hf Hall. eexists. split; [by apply clean_fables_found|].
  simpl. by rewrite clean_text_all_discarded.
Qed.

Lemma clean_fables_commentary_only :
  exists w',
    clean_fables ucd_sample "f.txt" commentary_world = (inr tt, w')
    /\ files w' = <[ "f.txt" := [NL] ]> (files commentary_world).
Proof.
  apply (clean_fables_all_discarded ucd_sample "f.txt" commentary_world
           commentary_only).
  - apply lookup_singleton_eq.
  - vm_compute.
    repeat (apply Forall_cons; split;
            [first [left; reflexivity | right; reflexivity]|]).
    exact (Forall_nil_2 _).
Defined.

(** ** The title rule *)

Lemma existsb_elem_of (p : N -> bool) (a : list N) :
  existsb p a = true <-> exists c, c ∈ a /\ p c = true.
Proof.
  rewrite existsb_exists. by setoid_rewrite list_elem_of_In.
Qed.

Lemma existsb_false_elem_of (p : N -> bool) (a : list N) :
  existsb p a = false <-> forall c, c ∈ a -> p c = false.
Proof.
  split.
  - intros H c Hc. destruct (p c) eqn:E; [|done].
    assert (existsb p a = true) by (apply existsb_elem_of; eauto). congruence.
  - intros H. destruct (existsb p a) eqn:E; [|done].
    apply existsb_elem_of in E as (c & Hc & Hp). rewrite H in Hp; done.
Qed.

Lemma isupper_scan_spec ucd (cased : bool) (a : list N) :
  isupper_scan ucd cased a
  = negb (existsb (fun c => ch_islower ucd c || ch_istitle ucd c) a)
    && (cased || existsb (ch_isupper ucd) a).
Proof.
  revert cased. induction a as [|c a IH]; intros cased; simpl.
  - by rewrite orb_false_r.
  - destruct (ch_islower ucd c || ch_istitle ucd c); [done|].
    rewrite IH. simpl. by rewrite orb_assoc.
Qed.

Lemma is_title_line_iff ucd (line : list N) :
  is_title_line ucd line = true <-> title_rule ucd line.
Proof.
  unfold is_title_line, str_isupper, title_rule.
  rewrite isupper_scan_spec. simpl.
  rewrite !andb_true_iff, negb_true_iff, existsb_false_elem_of, !existsb_elem_of.
  split.
  - intros [[H1 H2] H3]. repeat split; [..|done|done];
      specialize (H1 c H); apply orb_false_iff in H1; tauto.
  - intros (H1 & H2 & H3). repeat split; [|done..].
    intros c Hc. destruct (H1 c Hc) as [-> ->]. done.
Qed.

Lemma ascii_char_props ucd (c : N) :
  c < 128 ->
  ch_isalpha ucd c = ch_isupper ucd c || ch_islower ucd c
  /\ ch_istitle ucd c = false
  /\ (ch_isupper ucd c = true -> ch_islower ucd c = false).
Proof.
  intros Hc. unfold ch_isalpha, ch_isupper, ch_islower, ch_istitle, props.
  apply N.ltb_lt in Hc. rewrite Hc. simpl. repeat split.
  unfold in_range. rewrite !andb_true_iff, andb_false_iff, !N.leb_le, !N.leb_gt. lia.
Qed.

Lemma Forall_strip (P : N -> Prop) (a : list N) :
  Forall P a -> Forall P (strip a).
Proof.
  destruct (strip_decompose a) as (pre & suf & E & _).
  rewrite E at 1. rewrite !Forall_app. tauto.
Qed.

(** C4, as the code has it.  A line is a title exactly when its trimmed text
    holds no lowercase and no titlecase character, an uppercase character
    and an alphabetic character; on a line of ASCII characters that is the
    rule as stated: every alphabetic character is uppercase and there is
    one. *)
Theorem title_classification_rule (ucd : char -> char_props) (line : list N) :
  (is_title_line ucd line = true <-> title_rule ucd line)
  /\ (Forall (fun c => c < 128) line ->
      (is_title_line ucd line = true <-> title_rule_as_stated ucd line)).
Proof.
  split; [apply is_title_line_iff|].
  intros Hascii. apply Forall_strip in Hascii. rewrite Forall_forall in Hascii.
  rewrite is_title_line_iff. unfold title_rule, title_rule_as_stated. split.
  - intros (H1 & H2 & H3). split; [|done]. intros c Hc Ha.
    destruct (ascii_char_props ucd c (Hascii c Hc)) as (E & _ & _).
    destruct (H1 c Hc) as [Hl _]. rewrite E, Hl, orb_false_r in Ha. done.
  - intros [H1 (c0 & Hc0 & Ha0)]. split; [|split].
    + intros c Hc.
      destruct (ascii_char_props ucd c (Hascii c Hc)) as (E & Ht & Hul).
      split; [|done]. destruct (ch_islower ucd c) eqn:Hl; [|done].
      rewrite orb_true_r in E. specialize (Hul (H1 c Hc E)). done.
    + exists c0. split; [done|]. by apply H1.
    + by exists c0.
Qed.

Lemma title_classification_rule_fox :
  Forall (fun c => c < 128) (py "  THE FOX, 2! ")
  /\ (is_title_line ucd_sample (py "  THE FOX, 2! ") = true
      <-> title_rule_as_stated ucd_sample (py "  THE FOX, 2! ")).
Proof.
  assert (Forall (fun c => c < 128) (py "  THE FOX, 2! ")) as H.
  { vm_compute. repeat (apply Forall_cons; split; [reflexivity|]).
    exact (Forall_nil_2 _). }
  split; [exact H|].
  apply (title_classification_rule ucd_sample (py "  THE FOX, 2! ")). exact H.
Defined.

(** C4, as stated, fails on a letter without case: in the line "A中" the
    ideograph U+4E2D is alphabetic and not uppercase, and [str.isupper]
    passes over it. *)
Lemma title_with_uncased_letter :
  ~ (is_title_line ucd_sample [65; 20013] = true
     <-> title_rule_as_stated ucd_sample [65; 20013]).
Proof.
  intros [H _]. destruct (H eq_refl) as [Hall _].
  specialize (Hall 20013). vm_compute in Hall.
  assert (false = true) as Hf; [|discriminate Hf].
  apply Hall; [|done]. apply list_elem_of_In. right. by left.
Qed.

(** ** Idempotence *)

(** C1. Idempotence: for every input text, cleaning the text that a run
    wrote gives that same text again; and running the script a second time
    on the same path leaves the files as the first run left them. *)
Theorem clean_fables_idempotent (ucd : char -> char_props) :
  (forall t : list N, clean_text ucd (clean_text ucd t) = clean_text ucd t)
  /\ (forall file_path w,
        files (clean_fables ucd file_path (clean_fables ucd file_path w).2).2
        = files (clean_fables ucd file_path w).2).
Proof.
  split; [apply clean_text_twice|].
  intros file_path w. destruct (files w !! file_path) as [t|] eqn:E.
  - rewrite (clean_fables_found ucd file_path w t E). simpl.
    erewrite clean_fables_found by apply lookup_insert_eq. simpl.
    by rewrite clean_text_twice, insert_insert_eq.
  - rewrite (clean_fables_not_found ucd file_path w E). simpl.
    by rewrite (clean_fables_not_found ucd file_path w E).
Qed.

(** ** Title lines as appended *)




(** The space reaches the file when the title is not the last line. *)
Example title_written_with_trailing_space :
  lines_of (clean_text ucd_sample (py "FOX " ++ [NL] ++ py "a fox." ++ [NL]))
  = [DELIM; py "FOX "; py "a fox."].
Proof. by vm_compute. Qed.

(** * Further properties of the script *)

(** ** The title test *)

(** X2. The title test looks at the trimmed line only: removing the newline
    or all surrounding whitespace first does not change its answer; and a
    title line is neither blank nor the delimiter, so that the order of the
    title test and the blank test in the loop is of no consequence. *)
Theorem is_title_line_trimmed (ucd : char -> char_props) (line : list N) :
  is_title_line ucd (rstrip_nl line) = is_title_line ucd line
  /\ is_title_line ucd (strip line) = is_title_line ucd line
  /\ (is_title_line ucd line = true -> strip line <> [] /\ strip line <> DELIM).
Proof.
  split; [apply is_title_line_strip, strip_rstrip_nl|].
  split; [apply is_title_line_strip, strip_idemp|].
  intros H. split; [by apply (title_not_blank ucd)|].
  intros E. by rewrite (delim_not_title ucd line E) in H.
Qed.

(** ** What the pass keeps *)

Section Kept.

Variable ucd : char -> char_props.

Lemma is_content_same (x y : list N) :
  strip x = strip y -> is_content x = is_content y.
Proof. unfold is_content, reads_delim. by intros ->. Qed.

Lemma step_content st l :
  List.filter is_content (cleaned_lines (step ucd st l))
  = List.filter is_content (cleaned_lines st)
    ++ List.filter is_content
         (if not_commentary l then [rstrip_nl l] else []).
Proof.
  unfold step, not_commentary.
  destruct (starts_with_space_or_tab (rstrip_nl l)); simpl negb; cbv iota;
    [by rewrite app_nil_r|].
  destruct (is_title_line ucd (rstrip_nl l)) eqn:Ht; simpl cleaned_lines.
  - destruct (last_is_not DELIM (cleaned_lines st));
      by rewrite ?List.filter_app, ?app_nil_r.
  - case_bool_decide as Hb; simpl cleaned_lines.
    + assert (List.filter is_content [rstrip_nl l] = []) as ->.
      { simpl. unfold is_content. rewrite (bool_decide_eq_true_2 _ Hb).
        by rewrite andb_false_r. }
      destruct (title_or_text _ && last_is_not [] _);
        by rewrite ?List.filter_app, ?app_nil_r.
    + by rewrite List.filter_app.
Qed.

Lemma foldl_step_content lines st :
  List.filter is_content (cleaned_lines (foldl (step ucd) st lines))
  = List.filter is_content (cleaned_lines st)
    ++ List.filter is_content (map rstrip_nl (List.filter not_commentary lines)).
Proof.
  revert st. induction lines as [|l lines IH]; intros st; simpl.
  - by rewrite app_nil_r.
  - rewrite IH, step_content, <- app_assoc. f_equal.
    destruct (not_commentary l); simpl; [|done].
    by destruct (is_content (rstrip_nl l)).
Qed.

Lemma content_same_stripped (a b : list (list N)) :
  Forall2 same_stripped a b ->
  map strip (List.filter is_content a) = map strip (List.filter is_content b).
Proof.
  induction 1 as [|x y a b Hxy _ IH]; [done|]. simpl.
  rewrite (is_content_same x y Hxy). destruct (is_content y); simpl; [|done].
  by rewrite IH, Hxy.
Qed.

Lemma content_drop_last_empty (cl : list (list N)) :
  List.filter is_content (drop_last_empty cl) = List.filter is_content cl.
Proof.
  unfold drop_last_empty. destruct (last cl) as [[|c x]|] eqn:E; [|done..].
  apply last_Some in E as [cl' ->].
  by rewrite removelast_last, List.filter_app, app_nil_r.
Qed.

Lemma content_trim_ends (cl : list (list N)) :
  map strip (List.filter is_content (trim_ends cl))
  = map strip (List.filter is_content cl).
Proof.
  unfold trim_ends.
  rewrite <- (content_same_stripped _ _ (same_stripped_rstrip_last _)).
  rewrite content_drop_last_empty.
  by rewrite <- (content_same_stripped _ _ (same_stripped_lstrip_first _)).
Qed.

Lemma step_prefix st l :
  cleaned_lines st `prefix_of` cleaned_lines (step ucd st l).
Proof.
  unfold step. destruct (starts_with_space_or_tab _); [done|].
  destruct (is_title_line ucd _); simpl.
  - destruct (last_is_not DELIM _).
    + rewrite <- app_assoc. by apply prefix_app_r.
    + by apply prefix_app_r.
  - case_bool_decide; simpl; [|by apply prefix_app_r].
    destruct (title_or_text _ && last_is_not [] _); [by apply prefix_app_r|done].
Qed.

Lemma foldl_step_prefix lines st :
  cleaned_lines st `prefix_of` cleaned_lines (foldl (step ucd) st lines).
Proof.
  revert st. induction lines as [|l lines IH]; intros st; [done|]. simpl.
  etrans; [apply step_prefix | apply IH].
Qed.

Lemma step_length st l :
  (length (cleaned_lines (step ucd st l)) <= length (cleaned_lines st) + 2)%nat.
Proof.
  unfold step. destruct (starts_with_space_or_tab _); [lia|].
  destruct (is_title_line ucd _); simpl.
  - destruct (last_is_not DELIM _); rewrite !length_app; simpl; lia.
  - case_bool_decide; simpl; [|rewrite length_app; simpl; lia].
    destruct (title_or_text _ && last_is_not [] _);
      rewrite ?length_app; simpl; lia.
Qed.

Lemma foldl_step_length lines st :
  (length (cleaned_lines (foldl (step ucd) st lines))
   <= length (cleaned_lines st) + 2 * length lines)%nat.
Proof.
  revert st. induction lines as [|l lines IH]; intros st; simpl; [lia|].
  specialize (IH (step ucd st l)). pose proof (step_length st l). lia.
Qed.

Lemma trim_ends_length (cl : list (list N)) :
  (length (trim_ends cl) <= length cl)%nat.
Proof.
  unfold trim_ends.
  assert (forall l : list (list N), length (rstrip_last l) = length l) as Hr.
  { intros l. unfold rstrip_last. destruct (last l) eqn:E.
    - apply last_Some in E as [l' ->]. by rewrite removelast_last, !length_app.
    - by apply last_None in E as ->. }
  assert (forall l : list (list N),
            (length (drop_last_empty l) <= length l)%nat) as Hd.
  { intros l. unfold drop_last_empty. destruct (last l) as [[|c x]|] eqn:E; [|lia..].
    apply last_Some in E as [l' ->]. rewrite removelast_last, length_app. lia. }
  rewrite Hr. etrans; [apply Hd|]. by destruct cl.
Qed.

End Kept.

(** X3. Nothing is lost, added or reordered.  Leaving aside the entries that
    are blank or read ["###"], the cleaned sequence holds exactly the lines
    of the input that are not commentary, in their order and as they are but
    for the newline; and so do the lines of the written text, up to the
    whitespace around each line. *)
Theorem content_preserved (ucd : char -> char_props) (t : list N) :
  List.filter is_content (cleaned_lines (run_pass ucd (readlines t)))
  = List.filter is_content (input_lines t)
  /\ map strip (List.filter is_content (lines_of (clean_text ucd t)))
     = map strip (List.filter is_content (input_lines t)).
Proof.
  assert (List.filter is_content (cleaned_lines (run_pass ucd (readlines t)))
          = List.filter is_content (input_lines t)) as H.
  { unfold run_pass. by rewrite foldl_step_content. }
  split; [done|]. rewrite <- H.
  destruct (clean_text_lines ucd t) as [[-> ->]|(_ & _ & _ & _ & ->)]; [done|].
  apply content_trim_ends.
Qed.

(** X4. Commentary is transparent: a pass over the lines with the commentary
    lines taken out ends in the same state, cleaned sequence and previous line
    type, as the pass over all the lines. *)
Theorem commentary_transparent (ucd : char -> char_props) (lines : list (list N)) :
  run_pass ucd (List.filter not_commentary lines) = run_pass ucd lines.
Proof.
  unfold run_pass. generalize initial_state.
  induction lines as [|l lines IH]; intros st; [done|]. simpl.
  unfold not_commentary at 1.
  destruct (starts_with_space_or_tab (rstrip_nl l)) eqn:E; simpl.
  - rewrite IH. f_equal. unfold step. by rewrite E.
  - apply IH.
Qed.

(** X5. The loop only appends: the cleaned sequence after some lines is a
    prefix of the cleaned sequence after these lines and any more, so an
    entry once appended is never removed or changed by a later line. *)
Theorem cleaned_lines_append_only (ucd : char -> char_props)
    (lines more : list (list N)) :
  cleaned_lines (run_pass ucd lines)
  `prefix_of` cleaned_lines (run_pass ucd (lines ++ more)).
Proof.
  unfold run_pass. rewrite foldl_app. apply foldl_step_prefix.
Qed.

(** X6. Size: a line of the input adds at most two entries (a delimiter and
    a title), so the cleaned sequence has at most twice as many entries as
    the input has lines, and the written text has at most that many lines,
    or the one empty line when nothing is kept. *)
Theorem cleaned_lines_bound (ucd : char -> char_props) (t : list N) :
  (length (cleaned_lines (run_pass ucd (readlines t)))
   <= 2 * length (readlines t))%nat
  /\ (length (lines_of (clean_text ucd t))
      <= Nat.max 1 (2 * length (readlines t)))%nat.
Proof.
  assert (length (cleaned_lines (run_pass ucd (readlines t)))
          <= 2 * length (readlines t))%nat as H.
  { unfold run_pass.
    pose proof (foldl_step_length ucd (readlines t) initial_state) as H.
    simpl in H. lia. }
  split; [done|].
  destruct (clean_text_lines ucd t) as [[_ ->]|(_ & _ & _ & _ & ->)].
  - simpl. lia.
  - pose proof (trim_ends_length
                  (cleaned_lines (run_pass ucd (readlines t)))). lia.
Qed.

(** ** One delimiter for each title *)

Section Delimiters.

Variable ucd : char -> char_props.

Local Abbreviation delim_then_title := (delim_then_title ucd).

Lemma delim_then_title_last (cl : list (list N)) x :
  delim_then_title cl -> last cl = Some x -> strip x <> DELIM.
Proof.
  intros Hd Hl E. rewrite last_lookup in Hl.
  destruct (Hd _ _ Hl E) as (y & Hy & _).
  apply lookup_lt_Some in Hy. apply lookup_lt_Some in Hl. lia.
Qed.

Lemma reads_delim_false (x : list N) : strip x <> DELIM -> reads_delim x = false.
Proof. intros H. unfold reads_delim. by apply bool_decide_eq_false_2. Qed.

Lemma step_delims st l :
  no_delimiter_text l ->
  delim_then_title (cleaned_lines st) -> delims_exact (cleaned_lines st) ->
  delims_exact (cleaned_lines (step ucd st l))
  /\ length (List.filter reads_delim (cleaned_lines (step ucd st l)))
     = (length (List.filter reads_delim (cleaned_lines st))
        + length (List.filter (is_title_line ucd)
                    (if not_commentary l then [rstrip_nl l] else [])))%nat.
Proof.
  intros Hl Hd He. unfold step, not_commentary.
  destruct (starts_with_space_or_tab (rstrip_nl l)) eqn:Hind; simpl negb; cbv iota;
    [split; [done|simpl; lia]|].
  destruct Hl as [|Hl]; [congruence|]. rewrite <- strip_rstrip_nl in Hl.
  assert (List.filter reads_delim [rstrip_nl l] = []) as Hnd.
  { simpl. by rewrite reads_delim_false. }
  simpl List.filter at 3.
  destruct (is_title_line ucd (rstrip_nl l)) eqn:Ht; simpl cleaned_lines.
  - assert (last_is_not DELIM (cleaned_lines st) = true) as ->.
    { apply last_is_not_true. intros E.
      by apply (delim_then_title_last _ _ Hd E). }
    split.
    + unfold delims_exact. rewrite !Forall_app. split; [split; [done|]|].
      * by repeat constructor.
      * repeat constructor. by intros E.
    + rewrite !List.filter_app, Hnd, !length_app. simpl. lia.
  - case_bool_decide as Hb; simpl cleaned_lines.
    + destruct (title_or_text _ && last_is_not [] _).
      * split.
        -- unfold delims_exact. rewrite Forall_app. split; [done|].
           by repeat constructor.
        -- rewrite List.filter_app, length_app. simpl. lia.
      * split; [done|simpl; lia].
    + split.
      * unfold delims_exact. rewrite Forall_app. split; [done|].
        repeat constructor. by intros E.
      * rewrite List.filter_app, Hnd, length_app. simpl. lia.
Qed.

Lemma foldl_step_delims lines st :
  Forall no_delimiter_text lines ->
  delim_then_title (cleaned_lines st) -> delims_exact (cleaned_lines st) ->
  delims_exact (cleaned_lines (foldl (step ucd) st lines))
  /\ length (List.filter reads_delim (cleaned_lines (foldl (step ucd) st lines)))
     = (length (List.filter reads_delim (cleaned_lines st))
        + length (List.filter (is_title_line ucd)
                    (map rstrip_nl (List.filter not_commentary lines))))%nat.
Proof.
  revert st. induction lines as [|l lines IH]; intros st Hall Hd He; simpl.
  - split; [done|lia].
  - apply Forall_cons in Hall as [Hl Hall].
    destruct (step_delims st l Hl Hd He) as [He' Hn].
    destruct (IH (step ucd st l) Hall
                (step_delim_then_title ucd st l Hl Hd) He') as [He'' Hn'].
    split; [done|]. rewrite Hn', Hn.
    destruct (not_commentary l); simpl; [|lia].
    destruct (is_title_line ucd (rstrip_nl l)); simpl; lia.
Qed.

Lemma reads_delim_same_stripped (a b : list (list N)) :
  Forall2 same_stripped a b ->
  length (List.filter reads_delim a) = length (List.filter reads_delim b).
Proof.
  induction 1 as [|x y a b Hxy _ IH]; [done|]. simpl.
  assert (reads_delim x = reads_delim y) as ->
    by (unfold reads_delim; by rewrite Hxy).
  destruct (reads_delim y); simpl; by rewrite IH.
Qed.

Lemma reads_delim_trim_ends (cl : list (list N)) :
  length (List.filter reads_delim (trim_ends cl))
  = length (List.filter reads_delim cl).
Proof.
  unfold trim_ends.
  rewrite <- (reads_delim_same_stripped _ _ (same_stripped_rstrip_last _)).
  rewrite (reads_delim_same_stripped _ _ (same_stripped_lstrip_first cl)).
  unfold drop_last_empty.
  destruct (last (lstrip_first cl)) as [[|c x]|] eqn:E; [|done..].
  apply last_Some in E as [cl' ->].
  by rewrite removelast_last, List.filter_app, length_app.
Qed.

Lemma delims_exact_trim_ends (cl : list (list N)) :
  delims_exact cl -> delims_exact (trim_ends cl).
Proof.
  unfold delims_exact, trim_ends. intros H.
  assert (Forall (fun x => strip x = DELIM -> x = DELIM) (lstrip_first cl)) as H1.
  { destruct cl as [|x cl]; [done|]. apply Forall_cons in H as [Hx H].
    constructor; [|done]. rewrite strip_lstrip. intros E. by rewrite (Hx E). }
  assert (Forall (fun x => strip x = DELIM -> x = DELIM)
            (drop_last_empty (lstrip_first cl))) as H2.
  { unfold drop_last_empty.
    destruct (last (lstrip_first cl)) as [[|c x]|] eqn:E; [|done..].
    apply last_Some in E as [cl' E]. rewrite E in *.
    rewrite removelast_last. by apply Forall_app in H1 as [? _]. }
  unfold rstrip_last.
  destruct (last (drop_last_empty (lstrip_first cl))) as [x|] eqn:E; [|done].
  apply last_Some in E as [cl' E]. rewrite E in *. rewrite removelast_last.
  apply Forall_app in H2 as [Ha Hb]. apply Forall_app. split; [done|].
  apply Forall_cons in Hb as [Hx _]. constructor; [|done].
  rewrite strip_rstrip. intros E'. by rewrite (Hx E').
Qed.

Lemma delimiter_lines_exact (cl : list (list N)) :
  delims_exact cl ->
  length (delimiter_lines cl) = length (List.filter reads_delim cl).
Proof.
  unfold delimiter_lines. induction 1 as [|x cl Hx _ IH]; [done|]. simpl.
  unfold reads_delim at 1. case_bool_decide as E1; case_bool_decide as E2; simpl.
  - by rewrite IH.
  - destruct E2. by subst x.
  - by destruct (E1 (Hx E2)).
  - done.
Qed.

End Delimiters.

(** X7. One delimiter for each title: when no line of the input, apart from
    commentary, reads ["###"] once trimmed, the written text has as many
    lines ["###"] as the input has title lines that are not commentary. *)
Theorem one_delimiter_per_title (ucd : char -> char_props) (t : list N) :
  Forall no_delimiter_text (readlines t) ->
  length (delimiter_lines (lines_of (clean_text ucd t)))
  = length (List.filter (is_title_line ucd) (input_lines t)).
Proof.
  intros Hall.
  destruct (foldl_step_delims ucd (readlines t) initial_state Hall)
    as [He Hn]; [by intros i x | constructor |].
  fold (run_pass ucd (readlines t)) in He, Hn. simpl in Hn.
  unfold input_lines. rewrite <- Hn.
  destruct (clean_text_lines ucd t) as [[-> ->]|(_ & _ & _ & _ & ->)]; [done|].
  rewrite delimiter_lines_exact by (by apply delims_exact_trim_ends).
  apply reads_delim_trim_ends.
Qed.

Lemma one_delimiter_per_title_scenario1 :
  Forall no_delimiter_text (readlines scenario1)
  /\ length (delimiter_lines (lines_of (clean_text ucd_sample scenario1)))
     = length (List.filter (is_title_line ucd_sample) (input_lines scenario1)).
Proof.
  assert (Forall no_delimiter_text (readlines scenario1)) as H.
  { unfold no_delimiter_text. vm_compute.
    repeat (apply Forall_cons; split;
            [first [left; reflexivity | right; discriminate]|]).
    exact (Forall_nil_2 _). }
  split; [exact H|]. apply (one_delimiter_per_title ucd_sample scenario1 H).
Defined.

(** ** Blank lines and commentary at the ends of the input *)

Section Ends.

Variable ucd : char -> char_props.

Lemma step_same_to_the_loop st1 st2 l :
  same_to_the_loop st1 st2 ->
  same_to_the_loop (step ucd st1 l) (step ucd st2 l).
Proof.
  intros [Hc Ht]. unfold step.
  destruct (starts_with_space_or_tab _); [done|].
  destruct (is_title_line ucd _); [by split; simpl; rewrite ?Hc|].
  case_bool_decide; split; simpl; by rewrite ?Hc, ?Ht.
Qed.

Lemma foldl_same_to_the_loop lines st1 st2 :
  same_to_the_loop st1 st2 ->
  same_to_the_loop (foldl (step ucd) st1 lines) (foldl (step ucd) st2 lines).
Proof.
  revert st1 st2. induction lines as [|l lines IH]; intros st1 st2 H; [done|].
  simpl. by apply IH, step_same_to_the_loop.
Qed.

Lemma step_discarded_first l :
  discarded l -> same_to_the_loop (step ucd initial_state l) initial_state.
Proof.
  intros Hd.
  destruct (step_discarded ucd initial_state l Hd) as [Hc Ht]; [done|].
  by split.
Qed.

Lemma final_text_snoc_empty (cl : list (list N)) :
  final_text (cl ++ [[]]) = final_text cl.
Proof.
  unfold final_text. f_equal. destruct (decide (cl = [])) as [->|Hne]; [done|].
  rewrite join_nl_snoc by done.
  exact (strip_sandwich [] (join_nl cl) [NL] eq_refl eq_refl).
Qed.

Lemma step_discarded_last st l :
  discarded l ->
  final_text (cleaned_lines (step ucd st l)) = final_text (cleaned_lines st).
Proof.
  intros Hd. unfold step.
  destruct (starts_with_space_or_tab (rstrip_nl l)) eqn:Hind; [done|].
  destruct Hd as [|Hb]; [congruence|].
  destruct (is_title_line ucd (rstrip_nl l)) eqn:Ht;
    [by apply title_not_blank in Ht|].
  rewrite bool_decide_eq_true_2 by done. simpl.
  destruct (title_or_text _ && last_is_not [] _); [|done].
  apply final_text_snoc_empty.
Qed.

End Ends.

(** X8. Blank lines and commentary at either end of the input leave no
    trace: the text written for the lines with a blank or commentary line
    put before them, or after them, is the text written for the lines
    alone. *)
Theorem discarded_at_the_ends (ucd : char -> char_props)
    (l : list N) (lines : list (list N)) :
  discarded l ->
  final_text (cleaned_lines (run_pass ucd (l :: lines)))
  = final_text (cleaned_lines (run_pass ucd lines))
  /\ final_text (cleaned_lines (run_pass ucd (lines ++ [l])))
     = final_text (cleaned_lines (run_pass ucd lines)).
Proof.
  intros Hd. split.
  - unfold run_pass. simpl.
    destruct (foldl_same_to_the_loop ucd lines _ _
                (step_discarded_first ucd l Hd)) as [-> _]. done.
  - unfold run_pass. rewrite foldl_app. simpl. by apply step_discarded_last.
Qed.

Lemma discarded_at_the_ends_scenario1 :
  discarded [12; NL]
  /\ final_text (cleaned_lines
                   (run_pass ucd_sample ([12; NL] :: readlines scenario1)))
     = final_text (cleaned_lines (run_pass ucd_sample (readlines scenario1)))
  /\ final_text (cleaned_lines
                   (run_pass ucd_sample (readlines scenario1 ++ [[12; NL]])))
     = final_text (cleaned_lines (run_pass ucd_sample (readlines scenario1))).
Proof.
  assert (discarded [12; NL]) as H by (right; reflexivity).
  split; [exact H|].
  apply (discarded_at_the_ends ucd_sample [12; NL] (readlines scenario1) H).
Defined.

(** ** Delimiter lines of the input *)

Section Placement.

Variable ucd : char -> char_props.

Local Abbreviation delimiters_followed := (delimiters_followed ucd).
Local Abbreviation delims_open := (delims_open ucd).

Lemma not_commentary_true (l : list N) :
  not_commentary l = true <-> starts_with_space_or_tab (rstrip_nl l) = false.
Proof. unfold not_commentary. by destruct (starts_with_space_or_tab _). Qed.

Lemma step_commentary st l : not_commentary l = false -> step ucd st l = st.
Proof.
  unfold not_commentary, step.
  by destruct (starts_with_space_or_tab (rstrip_nl l)).
Qed.

(** A line of the input that reads ["###"] is taken for body text. *)
Lemma step_delimiter_text st l :
  not_commentary l = true -> strip l = DELIM ->
  step ucd st l
  = {| cleaned_lines := cleaned_lines st ++ [rstrip_nl l];
       previous_line_type := Some Text |}.
Proof.
  intros Hc Hs. apply not_commentary_true in Hc.
  rewrite <- strip_rstrip_nl in Hs. unfold step.
  rewrite Hc, (delim_not_title ucd _ Hs), Hs. done.
Qed.

Lemma delimiters_followed_cons x (ls : list (list N)) :
  delimiters_followed (x :: ls)
  <-> (x = DELIM -> exists y, head ls = Some y /\ is_title_line ucd y = true)
      /\ delimiters_followed ls.
Proof.
  split.
  - intros H. split.
    + intros ->. destruct (H O eq_refl) as (y & Hy & Ht).
      exists y. split; [|done]. by destruct ls.
    + intros i Hi. apply (H (S i) Hi).
  - intros [H0 H] [|i] Hi.
    + injection Hi as ->. destruct (H0 eq_refl) as (y & Hy & Ht).
      exists y. split; [|done]. by destruct ls.
    + apply (H i Hi).
Qed.

(** *** From the input to the cleaned sequence *)

Lemma last_lookup_end (cl : list (list N)) (i : nat) x :
  cl !! i = Some x -> ~ (S i < length cl)%nat -> last cl = Some x.
Proof.
  intros Hi Hn. rewrite last_lookup.
  apply lookup_lt_Some in Hi as Hlt.
  by replace (pred (length cl)) with i by lia.
Qed.

Lemma delims_open_snoc (cl : list (list N)) y :
  delims_open cl ->
  (last cl = Some DELIM -> is_title_line ucd y = true) ->
  delims_open (cl ++ [y]).
Proof.
  intros Ho Hy i Hi Hlt.
  apply lookup_snoc_Some in Hi as [[Hi_lt Hi]|[-> _]];
    [|rewrite length_app in Hlt; simpl in Hlt; lia].
  destruct (decide (S i < length cl)%nat) as [Hin|Hend].
  - destruct (Ho i Hi Hin) as (z & Hz & Ht). exists z. split; [|done].
    by rewrite lookup_app_l.
  - exists y. split; [|by apply Hy, (last_lookup_end _ i)].
    replace (S i) with (length cl) by lia. apply list_lookup_middle. done.
Qed.

(** One line that is not commentary, with the loop between two lines: a
    delimiter standing last waits for its title. *)
Lemma step_delims_open st l :
  not_commentary l = true ->
  delims_open (cleaned_lines st) ->
  (last (cleaned_lines st) = Some DELIM ->
   is_title_line ucd (rstrip_nl l) = true) ->
  delims_open (cleaned_lines (step ucd st l))
  /\ (last (cleaned_lines (step ucd st l)) = Some DELIM -> rstrip_nl l = DELIM).
Proof.
  intros Hc Ho Hp. apply not_commentary_true in Hc.
  unfold step. rewrite Hc.
  destruct (is_title_line ucd (rstrip_nl l)) eqn:Ht; simpl cleaned_lines.
  - destruct (last_is_not DELIM (cleaned_lines st)) eqn:Hg.
    + apply last_is_not_true in Hg.
      assert (delims_open (cleaned_lines st ++ [DELIM])) as Ho'
        by (by apply delims_open_snoc).
      split; [by apply delims_open_snoc|].
      rewrite last_snoc. by intros [= ->].
    + split; [by apply delims_open_snoc|].
      rewrite last_snoc. by intros [= ->].
  - assert (last (cleaned_lines st) <> Some DELIM) as Hnl.
    { intros E. by specialize (Hp E). }
    case_bool_decide as Hb; simpl cleaned_lines.
    + destruct (title_or_text _ && last_is_not [] _).
      * split; [by apply delims_open_snoc|].
        rewrite last_snoc. by intros [=].
      * split; [done|]. by intros E.
    + split; [by apply delims_open_snoc|].
      rewrite last_snoc. by intros [= ->].
Qed.

Lemma foldl_step_delims_open lines : forall st,
  delimiters_followed (map rstrip_nl (List.filter not_commentary lines)) ->
  delims_open (cleaned_lines st) ->
  (last (cleaned_lines st) = Some DELIM ->
   exists y, head (map rstrip_nl (List.filter not_commentary lines)) = Some y
             /\ is_title_line ucd y = true) ->
  delimiters_followed (cleaned_lines (foldl (step ucd) st lines)).
Proof.
  induction lines as [|l lines IH]; intros st HfK Ho Hp.
  - intros i Hi. destruct (decide (S i < length (cleaned_lines st))%nat).
    + by apply (Ho i).
    + destruct Hp as (y & Hy & _); [by apply (last_lookup_end _ i)|done].
  - cbn [foldl]. cbn [List.filter] in *. destruct (not_commentary l) eqn:Hc.
    + cbn [map head] in *.
      apply delimiters_followed_cons in HfK as [Hnext HfK].
      destruct (step_delims_open st l Hc Ho) as (Ho' & Hp').
      { intros E. destruct (Hp E) as (y & [= <-] & Ht). done. }
      apply IH; [done..|]. intros E. by apply Hnext, Hp'.
    + rewrite (step_commentary st l Hc). by apply IH.
Qed.

(** *** From the written lines back to the input *)

Lemma same_written_refl (cl : list (list N)) : Forall2 same_written cl cl.
Proof. induction cl; constructor; [by split|done]. Qed.

Lemma same_written_lstrip_first (cl : list (list N)) :
  Forall2 same_written cl (lstrip_first cl).
Proof.
  destruct cl as [|x cl]; [constructor|]. constructor.
  - split; [by rewrite strip_lstrip | by intros ->].
  - apply same_written_refl.
Qed.

Lemma same_written_rstrip_last (cl : list (list N)) :
  Forall2 same_written cl (rstrip_last cl).
Proof.
  unfold rstrip_last. destruct (last cl) as [x|] eqn:E.
  - apply last_Some in E as [cl' ->]. rewrite removelast_last.
    apply Forall2_app; [apply same_written_refl|]. constructor; [|constructor].
    split; [by rewrite strip_rstrip | by intros ->].
  - apply last_None in E as ->. constructor.
Qed.

Lemma drop_last_empty_lookup (cl : list (list N)) (i : nat) x :
  (drop_last_empty cl !! i = Some x -> cl !! i = Some x)
  /\ (cl !! i = Some x -> x <> [] -> drop_last_empty cl !! i = Some x).
Proof.
  unfold drop_last_empty. destruct (last cl) as [[|c y]|] eqn:E; [|done..].
  apply last_Some in E as [cl' ->]. rewrite removelast_last. split.
  - intros H. rewrite lookup_app_l; [done|]. by eapply lookup_lt_Some.
  - intros H Hx. by apply lookup_snoc_Some in H as [[_ H]|[_ <-]].
Qed.

Lemma trim_ends_lookup_delim (cl : list (list N)) (i : nat) :
  cl !! i = Some DELIM -> trim_ends cl !! i = Some DELIM.
Proof.
  intros H. unfold trim_ends.
  destruct (Forall2_lookup_l _ _ _ _ _ (same_written_lstrip_first cl) H)
    as (y & Hy & _ & Ey).
  rewrite (Ey eq_refl) in Hy.
  apply (proj2 (drop_last_empty_lookup _ i DELIM)) in Hy; [|done].
  destruct (Forall2_lookup_l _ _ _ _ _ (same_written_rstrip_last _) Hy)
    as (z & Hz & _ & Ez).
  by rewrite (Ez eq_refl) in Hz.
Qed.

Lemma trim_ends_lookup_inv (cl : list (list N)) (i : nat) y :
  trim_ends cl !! i = Some y -> exists x, cl !! i = Some x /\ strip x = strip y.
Proof.
  intros H. unfold trim_ends in H.
  destruct (Forall2_lookup_r _ _ _ _ _ (same_written_rstrip_last _) H)
    as (z & Hz & Ez & _).
  apply (proj1 (drop_last_empty_lookup _ _ _)) in Hz.
  destruct (Forall2_lookup_r _ _ _ _ _ (same_written_lstrip_first cl) Hz)
    as (x & Hx & Ex & _).
  exists x. split; [done|]. by rewrite Ex.
Qed.

(** A line that is not blank is still there after the strip. *)
Lemma trim_ends_lookup_kept (cl : list (list N)) (i : nat) x :
  cl !! i = Some x -> strip x <> [] ->
  exists y, trim_ends cl !! i = Some y /\ strip x = strip y.
Proof.
  intros H Hx. unfold trim_ends.
  destruct (Forall2_lookup_l _ _ _ _ _ (same_written_lstrip_first cl) H)
    as (y & Hy & Exy & _).
  apply (proj2 (drop_last_empty_lookup _ i y)) in Hy;
    [|intros ->; by rewrite Exy in Hx].
  destruct (Forall2_lookup_l _ _ _ _ _ (same_written_rstrip_last _) Hy)
    as (z & Hz & Eyz & _).
  exists z. split; [done|]. by rewrite Exy.
Qed.

Lemma delimiters_followed_trim_ends_inv (cl : list (list N)) :
  delimiters_followed (trim_ends cl) -> delimiters_followed cl.
Proof.
  intros H i Hi. apply trim_ends_lookup_delim in Hi.
  destruct (H i Hi) as (y & Hy & Ht).
  apply trim_ends_lookup_inv in Hy as (x & Hx & Exy).
  exists x. split; [done|]. by rewrite (is_title_line_strip ucd x y).
Qed.

(** A delimiter standing last, taken for body text, gets a title line after
    it only from the next line that is not commentary. *)
Lemma pending_delimiter_needs_title lines : forall st,
  last (cleaned_lines st) = Some DELIM ->
  title_or_text (previous_line_type st) = true ->
  delimiters_followed (cleaned_lines (foldl (step ucd) st lines)) ->
  exists y, head (map rstrip_nl (List.filter not_commentary lines)) = Some y
            /\ is_title_line ucd y = true.
Proof.
  induction lines as [|l lines IH]; intros st Hl Hty Hf; simpl in *.
  - rewrite last_lookup in Hl. destruct (Hf _ Hl) as (y & Hy & _).
    apply lookup_lt_Some in Hy. apply lookup_lt_Some in Hl. lia.
  - destruct (not_commentary l) eqn:Hc; simpl;
      [|rewrite (step_commentary st l Hc) in Hf; by apply (IH st)].
    destruct (is_title_line ucd (rstrip_nl l)) eqn:Ht; [by eexists|].
    exfalso.
    assert (exists z, cleaned_lines (step ucd st l) = cleaned_lines st ++ [z]
                      /\ is_title_line ucd z = false) as (z & Ez & Hz).
    { apply not_commentary_true in Hc. unfold step. rewrite Hc, Ht.
      case_bool_decide; simpl.
      - rewrite Hty.
        assert (last_is_not [] (cleaned_lines st) = true) as ->
          by (apply last_is_not_true; by rewrite Hl).
        by exists [].
      - by eexists. }
    pose proof (foldl_step_prefix ucd lines (step ucd st l)) as Hpre.
    rewrite Ez in Hpre. rewrite last_lookup in Hl.
    assert (length (cleaned_lines st) <> O) as Hlen.
    { intros E. by destruct (cleaned_lines st). }
    destruct (Hf (pred (length (cleaned_lines st)))) as (y & Hy & Hty').
    { eapply prefix_lookup_Some; [|exact Hpre]. rewrite lookup_app_l; [done|lia]. }
    replace (S (pred (length (cleaned_lines st))))
      with (length (cleaned_lines st)) in Hy by lia.
    assert (y = z) as ->; [|congruence].
    assert ((cleaned_lines st ++ [z]) !! length (cleaned_lines st) = Some z)
      as Hz' by apply list_lookup_middle, eq_refl.
    pose proof (prefix_lookup_Some _ _ _ _ Hz' Hpre). congruence.
Qed.

Lemma foldl_step_followed_inv lines : forall st,
  delimiters_followed (cleaned_lines (foldl (step ucd) st lines)) ->
  delimiters_followed (map rstrip_nl (List.filter not_commentary lines)).
Proof.
  induction lines as [|l lines IH]; intros st Hf.
  - by intros i.
  - cbn [foldl] in Hf. cbn [List.filter].
    destruct (not_commentary l) eqn:Hc;
      [|rewrite (step_commentary st l Hc) in Hf; by apply (IH st)].
    cbn [map]. apply delimiters_followed_cons.
    split; [|by apply (IH (step ucd st l))].
    intros Hs.
    assert (step ucd st l
            = {| cleaned_lines := cleaned_lines st ++ [DELIM];
                 previous_line_type := Some Text |}) as Est.
    { rewrite step_delimiter_text; [by rewrite Hs | done |].
      rewrite <- strip_rstrip_nl, Hs. reflexivity. }
    apply (pending_delimiter_needs_title lines (step ucd st l));
      [rewrite Est; apply last_snoc | by rewrite Est | done].
Qed.

(** The cleaned sequence has every delimiter followed by a title exactly when
    the lines of the input that are not commentary have. *)
Lemma run_pass_delimiters_followed (lines : list (list N)) :
  delimiters_followed (cleaned_lines (run_pass ucd lines))
  <-> delimiters_followed (map rstrip_nl (List.filter not_commentary lines)).
Proof.
  split; [apply foldl_step_followed_inv|].
  intros H. apply foldl_step_delims_open; [done|by intros i|done].
Qed.

End Placement.

(** ** The two ends of the written text *)

Section WrittenEnds.

Variable ucd : char -> char_props.

Local Abbreviation ends_inv := (ends_inv ucd).
Local Abbreviation delimiters_followed := (delimiters_followed ucd).
Local Abbreviation content_of lines :=
  (List.filter not_blank (map rstrip_nl (List.filter not_commentary lines))).

Lemma drop_last_empty_snoc (cl : list (list N)) y :
  y <> [] -> drop_last_empty (cl ++ [y]) = cl ++ [y].
Proof. intros Hy. unfold drop_last_empty. rewrite last_snoc. by destruct y. Qed.

Lemma drop_last_empty_snoc_empty (cl : list (list N)) :
  drop_last_empty (cl ++ [[]]) = cl.
Proof. unfold drop_last_empty. by rewrite last_snoc, removelast_last. Qed.

Lemma drop_last_empty_fixed (cl : list (list N)) :
  last cl <> Some [] -> drop_last_empty cl = cl.
Proof. intros H. unfold drop_last_empty. by destruct (last cl) as [[|]|]. Qed.

Lemma drop_last_empty_head (cl : list (list N)) c rest :
  drop_last_empty cl = c :: rest -> head cl = Some c.
Proof.
  unfold drop_last_empty. destruct (last cl) as [[|d y]|] eqn:E;
    [|by intros ->..].
  apply last_Some in E as [cl' ->]. rewrite removelast_last. by intros ->.
Qed.

Lemma content_of_snoc (lines : list (list N)) l :
  content_of (lines ++ [l])
  = content_of lines
    ++ (if not_commentary l && not_blank (rstrip_nl l)
        then [rstrip_nl l] else []).
Proof.
  rewrite List.filter_app, map_app, List.filter_app. f_equal. simpl.
  destruct (not_commentary l); simpl; [|done].
  by destruct (not_blank (rstrip_nl l)).
Qed.

(** A title or body line is appended, with a delimiter before it or not. *)
Lemma ends_inv_append (cl kc pre : list (list N)) s :
  ends_inv cl kc -> s <> [] ->
  (pre = [] \/ pre = [DELIM]) ->
  (is_title_line ucd s = false -> pre = []) ->
  (is_title_line ucd s = true -> cl = [] -> pre = [DELIM]) ->
  ends_inv (cl ++ pre ++ [s]) (kc ++ [s]).
Proof.
  intros (Q2 & Q3 & Q4 & Q5) Hs Hpre Hbody Htitle.
  assert (drop_last_empty (cl ++ pre ++ [s]) = cl ++ pre ++ [s]) as Ed
    by (rewrite app_assoc; by apply drop_last_empty_snoc).
  split; [|split; [|split]].
  - split; intros H; [by destruct cl, pre | by destruct kc].
  - intros x Hx. destruct kc as [|k kc].
    + injection Hx as <-. rewrite (proj2 Q2 eq_refl). simpl.
      destruct (is_title_line ucd s) eqn:Ht.
      * by rewrite (Htitle eq_refl (proj2 Q2 eq_refl)).
      * by rewrite (Hbody eq_refl).
    + injection Hx as <-. specialize (Q3 k eq_refl).
      destruct cl as [|c cl]; [done|]. exact Q3.
  - rewrite Ed, !app_assoc, !last_snoc. done.
  - rewrite Ed, !length_app. simpl. split.
    + intros Hlen. assert (cl = []) as -> by (destruct cl; [done|simpl in Hlen; lia]).
      assert (pre = []) as -> by (destruct pre; [done|simpl in Hlen; lia]).
      rewrite (proj1 Q2 eq_refl). exists s. split; [done|].
      destruct (is_title_line ucd s) eqn:Ht; [|done].
      by specialize (Htitle eq_refl eq_refl).
    + intros (x & Hx & Ht). destruct kc as [|k kc]; [|by destruct kc].
      injection Hx as <-. rewrite (proj2 Q2 eq_refl), (Hbody Ht). done.
Qed.

(** An empty entry is appended after an entry that is not empty. *)
Lemma ends_inv_empty (cl kc : list (list N)) :
  ends_inv cl kc -> cl <> [] -> last cl <> Some [] ->
  ends_inv (cl ++ [[]]) kc.
Proof.
  intros (Q2 & Q3 & Q4 & Q5) Hne Hl.
  rewrite (drop_last_empty_fixed cl Hl) in Q4, Q5.
  split; [|split; [|split]].
  - split; intros H; [by destruct cl|]. by destruct Hne, (proj2 Q2 H).
  - intros x Hx. specialize (Q3 x Hx). by destruct cl.
  - by rewrite drop_last_empty_snoc_empty.
  - by rewrite drop_last_empty_snoc_empty.
Qed.

(** The loop keeps the ends of the cleaned sequence and of the kept lines
    together. *)
Lemma run_pass_ends (lines : list (list N)) :
  ends_inv (cleaned_lines (run_pass ucd lines)) (content_of lines)
  /\ (title_or_text (previous_line_type (run_pass ucd lines)) = true ->
      cleaned_lines (run_pass ucd lines) <> []).
Proof.
  induction lines as [|l lines [IH Hty]] using rev_ind.
  - split; [|done]. split; [done|]. split; [done|]. split; [done|].
    split; [done|]. by intros (x & ? & _).
  - unfold run_pass in *. rewrite foldl_app, content_of_snoc. cbn [foldl].
    set (st := foldl (step ucd) initial_state lines) in *.
    unfold step, not_commentary.
    destruct (starts_with_space_or_tab (rstrip_nl l)) eqn:Hind; cbn [negb andb].
    { rewrite app_nil_r. by split. }
    destruct (is_title_line ucd (rstrip_nl l)) eqn:Ht.
    + assert (not_blank (rstrip_nl l) = true) as ->.
      { unfold not_blank. apply negb_true_iff, bool_decide_eq_false_2.
        by apply (title_not_blank ucd). }
      assert (rstrip_nl l <> []) as Hs.
      { intros E. rewrite E in Ht. done. }
      cbn [cleaned_lines previous_line_type].
      split; [|by intros _ ?%app_nil_r_inv].
      destruct (last_is_not DELIM (cleaned_lines st)) eqn:Hg.
      * rewrite <- app_assoc.
        apply ends_inv_append; [done|done|by right|congruence|done].
      * apply last_is_not_false in Hg.
        apply (ends_inv_append _ _ []); [done|done|by left|done|].
        intros _ E. by rewrite E in Hg.
    + case_bool_decide as Hb; cbn [cleaned_lines previous_line_type].
      * assert (not_blank (rstrip_nl l) = false) as ->.
        { unfold not_blank. by rewrite bool_decide_eq_true_2. }
        rewrite app_nil_r. split; [|done].
        destruct (title_or_text (previous_line_type st)) eqn:Hp; [|done].
        destruct (last_is_not [] (cleaned_lines st)) eqn:Hg; [|done].
        apply last_is_not_true in Hg. cbn [andb].
        apply ends_inv_empty; [done|by apply Hty|done].
      * assert (not_blank (rstrip_nl l) = true) as ->.
        { unfold not_blank. by rewrite bool_decide_eq_false_2. }
        split; [|by intros _ ?%app_nil_r_inv].
        apply (ends_inv_append _ _ []); [done| |by left|done|congruence].
        intros E. by rewrite E in Hb.
Qed.

(** *** When the strip makes a delimiter *)

Lemma delimiter_only_from_refl (ls : list (list N)) :
  Forall2 delimiter_only_from ls ls.
Proof. induction ls; constructor; [by intros ?|done]. Qed.

Lemma rstrip_last_no_delimiter (ls : list (list N)) :
  Forall2 delimiter_only_from ls (rstrip_last ls)
  <-> (forall z, last ls = Some z -> rstrip_with isspace z = DELIM -> z = DELIM).
Proof.
  unfold rstrip_last. destruct (last ls) as [z|] eqn:E.
  - apply last_Some in E as [ls' ->]. rewrite removelast_last. split.
    + intros H z' [= <-]. apply Forall2_app_inv in H as [_ H]; [|done].
      by apply Forall2_cons in H as [H _].
    + intros H. apply Forall2_app; [apply delimiter_only_from_refl|].
      constructor; [|constructor]. exact (H z eq_refl).
  - apply last_None in E as ->. split; [by intros _ z|constructor].
Qed.

Lemma rstrip_last_cons x y (ls : list (list N)) :
  rstrip_last (x :: y :: ls) = x :: rstrip_last (y :: ls).
Proof.
  unfold rstrip_last. rewrite last_cons_cons.
  destruct (last (y :: ls)) eqn:E; [done|]. by apply last_None in E.
Qed.

(** Only the first and the last line count, and a single line is both. *)
Lemma strip_makes_no_delimiter_ends (ls : list (list N)) :
  strip_makes_no_delimiter ls
  <-> match ls with
      | [] => True
      | [x] => strip x = DELIM -> x = DELIM
      | x :: _ =>
          (lstrip_with isspace x = DELIM -> x = DELIM)
          /\ (forall z, last ls = Some z ->
                rstrip_with isspace z = DELIM -> z = DELIM)
      end.
Proof.
  unfold strip_makes_no_delimiter. destruct ls as [|x [|y ls]].
  - split; [done|constructor].
  - change (rstrip_last (lstrip_first [x])) with [strip x].
    rewrite Forall2_cons. unfold delimiter_only_from. split; [tauto|].
    intros H. split; [done|constructor].
  - cbn [lstrip_first]. rewrite rstrip_last_cons, Forall2_cons.
    rewrite rstrip_last_no_delimiter, last_cons_cons. done.
Qed.

Lemma delimiter_stripped_not_title (x y : list N) :
  strip y = strip x -> y = DELIM -> is_title_line ucd x = true -> False.
Proof.
  intros E -> Ht. rewrite (delim_not_title ucd x) in Ht; [done|]. by rewrite <- E.
Qed.

(** The strip makes a delimiter at an end of the cleaned sequence exactly when
    it makes one at that end of the kept lines. *)
Lemma strip_makes_no_delimiter_transfer (cl kc : list (list N)) :
  ends_inv cl kc ->
  strip_makes_no_delimiter (drop_last_empty cl) <-> strip_makes_no_delimiter kc.
Proof.
  intros (Q2 & Q3 & Q4 & Q5). rewrite !strip_makes_no_delimiter_ends.
  destruct kc as [|x [|y kc]].
  - rewrite (proj2 Q2 eq_refl). done.
  - destruct (is_title_line ucd x) eqn:Ht.
    + (* a lone title line: the delimiter goes before it *)
      destruct (drop_last_empty cl) as [|c [|c' r]] eqn:Ec; [done| |].
      * destruct (proj1 Q5 eq_refl) as (x' & [= <-] & Ht'). congruence.
      * apply drop_last_empty_head in Ec as Hh.
        rewrite (Q3 x eq_refl), Ht in Hh. injection Hh as <-.
        split; [intros _ E|intros _].
        -- destruct (delimiter_stripped_not_title x (strip x)); [|done..].
           by rewrite strip_idemp.
        -- split; [done|]. rewrite Q4. intros z [= <-] E.
           destruct (delimiter_stripped_not_title x (rstrip_with isspace x));
             [apply strip_rstrip|done..].
    + (* a lone body line *)
      assert (length (drop_last_empty cl) = 1%nat) as Hlen
        by (apply Q5; by exists x).
      destruct (drop_last_empty cl) as [|c [|c' r]]; [done| |done].
      by injection Q4 as ->.
  - (* two kept lines or more *)
    destruct (drop_last_empty cl) as [|c [|c' r]] eqn:Ec.
    + by rewrite last_cons_cons in Q4; destruct (last (y :: kc)) eqn:E;
        [|apply last_None in E].
    + destruct (proj1 Q5 eq_refl) as (x' & [=] & _).
    + apply drop_last_empty_head in Ec as Hh.
      rewrite (Q3 x eq_refl) in Hh. injection Hh as Hc. rewrite Q4.
      destruct (is_title_line ucd x) eqn:Ht; subst c; [|done].
      split; intros [_ H]; (split; [|done]); [|done].
      intros E. destruct (delimiter_stripped_not_title x (lstrip_with isspace x));
        [apply strip_lstrip|done..].
Qed.

Lemma drop_last_empty_lstrip_first (cl : list (list N)) :
  (forall x, head cl = Some x -> strip x <> []) ->
  drop_last_empty (lstrip_first cl) = lstrip_first (drop_last_empty cl).
Proof.
  intros Hh. destruct cl as [|x [|y cl]]; [done| |].
  - specialize (Hh x eq_refl).
    assert (lstrip_with isspace x <> []) as Hlx.
    { intros E. apply Hh. by rewrite <- strip_lstrip, E. }
    destruct x as [|c x]; [done|].
    unfold drop_last_empty. cbn [lstrip_first last].
    by destruct (lstrip_with isspace (c :: x)).
  - unfold drop_last_empty. cbn [lstrip_first]. rewrite !last_cons_cons.
    destruct (last (y :: cl)) as [[|d z]|]; done.
Qed.

Lemma trim_ends_alt (cl : list (list N)) :
  (forall x, head cl = Some x -> strip x <> []) ->
  trim_ends cl = rstrip_last (lstrip_first (drop_last_empty cl)).
Proof. intros H. unfold trim_ends. by rewrite drop_last_empty_lstrip_first. Qed.

End WrittenEnds.

Section WrittenDelimiters.

Variable ucd : char -> char_props.

Local Abbreviation delimiters_followed := (delimiters_followed ucd).

Lemma same_written_trim (ls : list (list N)) :
  Forall2 same_written ls (rstrip_last (lstrip_first ls)).
Proof.
  eapply Forall2_trans;
    [|apply same_written_lstrip_first|apply same_written_rstrip_last].
  intros x y z [E1 D1] [E2 D2]. split; [congruence|auto].
Qed.

(** In the written lines every delimiter is followed by a title exactly when
    it is so in the cleaned sequence and the strip has made no delimiter. *)
Lemma trim_ends_delimiters_followed (cl : list (list N)) :
  canonical ucd cl -> cl <> [] ->
  delimiters_followed (trim_ends cl)
  <-> delimiters_followed cl /\ strip_makes_no_delimiter (drop_last_empty cl).
Proof.
  intros Hc Hne.
  assert (trim_ends cl
          = rstrip_last (lstrip_first (drop_last_empty cl))) as E.
  { apply trim_ends_alt. destruct cl as [|x cl]; [done|]. intros x' [= <-].
    by apply (canonical_first_not_blank ucd x cl). }
  split.
  - intros H. split; [by apply delimiters_followed_trim_ends_inv|].
    unfold strip_makes_no_delimiter. rewrite <- E.
    apply Forall2_same_length_lookup_2.
    { rewrite E. apply Forall2_length with same_written, same_written_trim. }
    intros i x y Hx Hy ->.
    destruct (H i Hy) as (y' & Hy' & Ht).
    apply trim_ends_lookup_inv in Hy' as (x' & Hx' & Exy).
    rewrite <- (is_title_line_strip ucd x' y' Exy) in Ht.
    destruct (canonical_title_after_delim ucd cl (S i) x' Hc Hx' Ht)
      as (j & [= <-] & Hj).
    apply (proj1 (drop_last_empty_lookup _ _ _)) in Hx. congruence.
  - intros [Hf Hd] i Hi. unfold strip_makes_no_delimiter in Hd.
    rewrite E in Hi.
    destruct (Forall2_lookup_r _ _ _ _ _ Hd Hi) as (x & Hx & Hxd).
    rewrite (Hxd eq_refl) in Hx.
    apply (proj1 (drop_last_empty_lookup _ _ _)) in Hx.
    destruct (Hf i Hx) as (x' & Hx' & Ht).
    destruct (trim_ends_lookup_kept cl (S i) x' Hx') as (y & Hy & Exy);
      [by apply (title_not_blank ucd)|].
    exists y. split; [done|]. by rewrite <- (is_title_line_strip ucd x' y Exy).
Qed.

Lemma written_delimiters_followed (t : list N) :
  delimiters_followed (lines_of (clean_text ucd t))
  <-> delimiters_followed (input_lines t)
      /\ strip_makes_no_delimiter (kept_content t).
Proof.
  destruct (run_pass_ends ucd (readlines t)) as [Hends _].
  pose proof (run_pass_delimiters_followed ucd (readlines t)) as Hrun.
  pose proof (strip_makes_no_delimiter_transfer ucd _ _ Hends) as Htr.
  fold (input_lines t) in Hrun. fold (input_lines t) in Htr.
  fold (kept_content t) in Htr. fold (input_lines t) in Hends.
  fold (kept_content t) in Hends.
  destruct (clean_text_lines ucd t) as [[Hnil ->]|(Hne & _ & _ & _ & ->)].
  - rewrite Hnil in *. destruct Hends as (Q2 & _).
    rewrite (proj1 Q2 eq_refl). split.
    + intros _. split; [by apply Hrun; intros i|constructor].
    + intros _ [|i] [=].
  - destruct (run_pass_inv ucd t) as [Hc _].
    rewrite trim_ends_delimiters_followed by done. by rewrite Hrun, Htr.
Qed.

Lemma delims_exact_no_delimiter (t : list N) :
  delims_exact (input_lines t) -> strip_makes_no_delimiter (kept_content t).
Proof.
  intros He. unfold strip_makes_no_delimiter.
  pose proof (same_written_trim (kept_content t)) as Hs.
  apply Forall2_same_length_lookup in Hs as [Hlen Hs].
  apply Forall2_same_length_lookup_2; [done|].
  intros i x w Hx Hw ->. destruct (Hs i x DELIM Hx Hw) as [E _].
  unfold delims_exact in He. rewrite Forall_forall in He. apply He; [|done].
  apply list_elem_of_lookup_2 in Hx. unfold kept_content in Hx.
  apply list_elem_of_In, List.filter_In in Hx as [Hx _].
  by apply list_elem_of_In.
Qed.

End WrittenDelimiters.



(** A delimiter line of the input right before a title is the one case the
    loop's test of the last entry is there for: no second delimiter. *)
Example delimiter_line_before_title :
  lines_of (clean_text ucd_sample (py "###" ++ [NL] ++ py "FOX" ++ [NL]))
  = [DELIM; py "FOX"].
Proof. by vm_compute. Qed.

(** The strip of the whole text makes a delimiter of a first line that reads
    a form feed and ["###"]; the delimiter of the title comes right after. *)
Example delimiter_made_by_strip :
  lines_of (clean_text ucd_sample ([12] ++ py "###" ++ [NL] ++ py "FOX" ++ [NL]))
  = [DELIM; DELIM; py "FOX"].
Proof. by vm_compute. Qed.
